(** * kubectl-who-can: the resource resolver, the policy rule matcher and
    the role reference index

    A shallow embedding of [pkg/cmd/resource_resolver.go] and of the parts
    of the [whoCan] command that its test-suite exercises, followed by the
    properties stated about them.

    Go values are embedded as follows.
    - [string] is [String.string]; the empty string is [EmptyString].
    - A slice is a [list]; ranging over it is a left-to-right recursion.
    - [map[string]APIResource] is a [gmap string APIResource]; an
      assignment [m[k] = v] is [<[k:=v]> m] and the two-valued lookup
      [v, ok := m[k]] is [m !! k].
    - A pair [(T, error)] is a [result T]: [Ok v] stands for [(v, nil)] and
      [Err e] for [(zero, e)].  An [error] built with [fmt.Errorf] or
      [errors.New] is determined by its message, so [error] is the message.
    - An interface is a record of its methods.  The discovery client and the
      REST mapper answer from one snapshot of the cluster, so their methods
      are functions of their arguments. *)

From stdpp Require Import base option list strings gmap fin_maps fin_sets.

(** ** Errors and results *)

Definition error : Type := string.
Bind Scope string_scope with error.

Inductive result (A : Type) : Type :=
| Ok (v : A)
| Err (err : error).
Arguments Ok {A} v.
Arguments Err {A} err.

Definition is_Ok {A} (r : result A) : bool :=
  match r with Ok _ => true | Err _ => false end.

Definition is_Err {A} (r : result A) : bool :=
  match r with Ok _ => false | Err _ => true end.

(** ** Formatting, as [fmt.Errorf] does it *)

Module fmt.

(** The double-quote character, escaped in a Go string literal. *)
Definition dquote : string := String (Ascii.ascii_of_nat 34) EmptyString.

(** The verb [%s] between two escaped double quotes. *)
Definition quoted (s : string) : string := dquote +:+ s +:+ dquote.

(** [%v] applied to a [[]string]: the elements separated by one space,
    between square brackets. *)
Definition verb_v (l : list string) : string :=
  "[" +:+ String.concat " " l +:+ "]".

End fmt.

(** [mentions msg tok]: the text [tok] occurs in the message [msg]. *)
Definition mentions (msg tok : string) : Prop :=
  ∃ before after : string, msg = before +:+ tok +:+ after.

(** ** The Kubernetes types the resolver reads *)

Module rbac.

(** [rbac.VerbAll] and [rbac.ResourceAll]. *)
Definition VerbAll : string := "*".
Definition ResourceAll : string := "*".
Definition NonResourceAll : string := "*".

Record PolicyRule : Type := {
  Verbs : list string;
  Resources : list string;
  ResourceNames : list string;
  NonResourceURLs : list string
}.

Record RoleRef : Type := {
  APIGroup : string;
  Kind : string;
  Name : string
}.

End rbac.

Module apismeta.

Record GroupVersionForDiscovery : Type := {
  GroupVersion : string;
  Version : string
}.

Record APIGroup : Type := {
  GroupName : string;
  Versions : list GroupVersionForDiscovery;
  PreferredVersion : GroupVersionForDiscovery
}.

Record APIGroupList : Type := {
  Groups : list APIGroup
}.

Record APIResource : Type := {
  Name : string;
  Namespaced : bool;
  Kind : string;
  Verbs : list string;
  ShortNames : list string
}.

Record APIResourceList : Type := {
  ListGroupVersion : string;
  APIResources : list APIResource
}.

End apismeta.

Module schema.

Record GroupVersionResource : Type := {
  Group : string;
  Version : string;
  Resource : string
}.

End schema.

Module discovery.

(** The two methods of [discovery.DiscoveryInterface] that are called. *)
Record DiscoveryInterface : Type := {
  ServerGroups : result apismeta.APIGroupList;
  ServerResourcesForGroupVersion : string → result apismeta.APIResourceList
}.

End discovery.

Module meta.

(** The one method of [meta.RESTMapper] that is called. *)
Record RESTMapper : Type := {
  ResourceFor : schema.GroupVersionResource → result schema.GroupVersionResource
}.

End meta.

(** ** [resource_resolver.go] *)

Record resourceResolver : Type := {
  client : discovery.DiscoveryInterface;
  mapper : meta.RESTMapper
}.

Definition NewResourceResolver (client : discovery.DiscoveryInterface)
    (mapper : meta.RESTMapper) : resourceResolver :=
  {| client := client; mapper := mapper |}.

(** The error messages of the file, one definition per [fmt.Errorf]. *)
Definition errNoResourceType (name : string) : error :=
  "the server doesn't have a resource type " +:+ fmt.quoted name.

Definition errVerbNotSupported (apiResource : apismeta.APIResource) (verb : string) : error :=
  "the " +:+ fmt.quoted (apismeta.Name apiResource) +:+
  " resource does not support the " +:+ fmt.quoted verb +:+
  " verb, only " +:+ fmt.verb_v (apismeta.Verbs apiResource).

Definition errNotFound (name : string) : error :=
  "not found " +:+ fmt.quoted name.

Definition errGettingGroups (err : error) : error :=
  "getting API groups: " +:+ err.

Definition errGettingResources (err : error) : error :=
  "getting resources for API group: " +:+ err.

(** The innermost loop of [indexResources]: [serverResources[sn] = res] for
    every short name. *)
Definition indexShortNames (res : apismeta.APIResource) (sns : list string)
    (serverResources : gmap string apismeta.APIResource) : gmap string apismeta.APIResource :=
  foldl (λ m sn, <[sn := res]> m) serverResources sns.

(** The body of [for _, res := range rsList.APIResources]. *)
Definition indexResource (res : apismeta.APIResource)
    (serverResources : gmap string apismeta.APIResource) : gmap string apismeta.APIResource :=
  let serverResources := <[apismeta.Name res := res]> serverResources in
  if 0 <? length (apismeta.ShortNames res)
  then indexShortNames res (apismeta.ShortNames res) serverResources
  else serverResources.

Fixpoint indexAPIResources (rs : list apismeta.APIResource)
    (serverResources : gmap string apismeta.APIResource) : gmap string apismeta.APIResource :=
  match rs with
  | [] => serverResources
  | res :: rs' => indexAPIResources rs' (indexResource res serverResources)
  end.

(** [for _, version := range sg.Versions], which leaves the function at the
    first list of resources that cannot be fetched. *)
Fixpoint indexVersions (rv : resourceResolver) (sg : apismeta.APIGroup)
    (versions : list apismeta.GroupVersionForDiscovery)
    (serverResources : gmap string apismeta.APIResource)
    : result (gmap string apismeta.APIResource) :=
  match versions with
  | [] => Ok serverResources
  | version :: versions' =>
      (* Consider only preferred versions *)
      if decide (apismeta.GroupVersion version
                 ≠ apismeta.GroupVersion (apismeta.PreferredVersion sg))
      then indexVersions rv sg versions' serverResources
      else
        match discovery.ServerResourcesForGroupVersion (client rv)
                (apismeta.GroupVersion version) with
        | Err err => Err (errGettingResources err)
        | Ok rsList =>
            indexVersions rv sg versions'
              (indexAPIResources (apismeta.APIResources rsList) serverResources)
        end
  end.

(** [for _, sg := range serverGroups.Groups]. *)
Fixpoint indexGroups (rv : resourceResolver) (groups : list apismeta.APIGroup)
    (serverResources : gmap string apismeta.APIResource)
    : result (gmap string apismeta.APIResource) :=
  match groups with
  | [] => Ok serverResources
  | sg :: groups' =>
      match indexVersions rv sg (apismeta.Versions sg) serverResources with
      | Err err => Err err
      | Ok serverResources => indexGroups rv groups' serverResources
      end
  end.

(** [indexResources] builds a lookup index for APIResources where the keys
    are resources names (both plural and short names). *)
Definition indexResources (rv : resourceResolver)
    : result (gmap string apismeta.APIResource) :=
  let serverResources : gmap string apismeta.APIResource := ∅ in
  match discovery.ServerGroups (client rv) with
  | Err err => Err (errGettingGroups err)
  | Ok serverGroups => indexGroups rv (apismeta.Groups serverGroups) serverResources
  end.

Definition lookupResource (rv : resourceResolver)
    (index : gmap string apismeta.APIResource) (resourceArg : string)
    : result apismeta.APIResource :=
  match index !! resourceArg with
  | Some resource => Ok resource
  | None =>
      match meta.ResourceFor (mapper rv)
              {| schema.Group := EmptyString; schema.Version := EmptyString;
                 schema.Resource := resourceArg |} with
      | Err err => Err err
      | Ok gvr =>
          match index !! schema.Resource gvr with
          | Some resource => Ok resource
          | None => Err (errNotFound resourceArg)
          end
      end
  end.

Definition lookupSubResource (rv : resourceResolver)
    (index : gmap string apismeta.APIResource) (subResource : string)
    : result apismeta.APIResource :=
  match index !! subResource with
  | None => Err (errNotFound subResource)
  | Some apiResource => Ok apiResource
  end.

Definition resourceFor (rv : resourceResolver) (resourceArg subResource : string)
    : result apismeta.APIResource :=
  match indexResources rv with
  | Err err => Err err
  | Ok index =>
      match lookupResource rv index resourceArg with
      | Err err => Err err
      | Ok apiResource =>
          if decide (subResource ≠ EmptyString)
          then
            match lookupSubResource rv index
                    (apismeta.Name apiResource +:+ "/" +:+ subResource) with
            | Err err => Err err
            | Ok apiResource => Ok apiResource
            end
          else Ok apiResource
      end
  end.

(** [isVerbSupportedBy] returns [true] if the given verb is supported by the
    given resource, [false] otherwise.  Returns [true] if the given verb
    equals [VerbAll]. *)
Definition isVerbSupportedBy (rv : resourceResolver) (verb : string)
    (resource : apismeta.APIResource) : bool :=
  if decide (verb = rbac.VerbAll) then true
  else
    foldl (λ (supported : bool) v, if decide (v = verb) then true else supported)
          false (apismeta.Verbs resource).

Definition Resolve (rv : resourceResolver) (verb resource subResource : string)
    : result string :=
  if decide (resource = rbac.ResourceAll) then Ok resource
  else
    match resourceFor rv resource subResource with
    | Err _ =>
        let name := resource in
        let name :=
          if decide (subResource ≠ EmptyString)
          then name +:+ "/" +:+ subResource
          else name in
        Err (errNoResourceType name)
    | Ok apiResource =>
        if negb (isVerbSupportedBy rv verb apiResource)
        then Err (errVerbNotSupported apiResource verb)
        else Ok (apismeta.Name apiResource)
    end.

(** ** The parts of [whoCan] that the test-suite exercises *)

(** Modelled from the spec: the declaration of [whoCan] is missing from the
    sources; these are the fields of the requested action, under the names
    that the tests give them. *)
Record whoCan : Type := {
  verb : string;
  resource : string;
  nonResourceURL : string;
  subResource : string;
  resourceName : string
}.

(** Modelled from the spec: the membership tests of the matcher are
    missing from the sources.  A value matches a field of a rule when it is
    a member of the field or when the literal wildcard is; nothing is
    expanded as a pattern. *)
Definition memberOrWildcard (wildcard value : string) (field : list string) : bool :=
  bool_decide (value ∈ field) || bool_decide (wildcard ∈ field).

(** Modelled from the spec: the test of the verb is missing from the
    sources; the verb of the query is one of the verbs of the rule, or the
    verbs of the rule contain the wildcard. *)
Definition matchesVerb (w : whoCan) (rule : rbac.PolicyRule) : bool :=
  memberOrWildcard rbac.VerbAll (verb w) (rbac.Verbs rule).

(** Modelled from the spec: the test of the resource is missing from the
    sources; the resource of the query is one of the resources of the
    rule, or the resources of the rule contain the wildcard. *)
Definition matchesResource (w : whoCan) (rule : rbac.PolicyRule) : bool :=
  memberOrWildcard rbac.ResourceAll (resource w) (rbac.Resources rule).

(** Modelled from the spec: the test of the non-resource URL is missing
    from the sources; the URL of the query is one of the non-resource URLs
    of the rule, or those contain the wildcard. *)
Definition matchesNonResourceURL (w : whoCan) (rule : rbac.PolicyRule) : bool :=
  memberOrWildcard rbac.NonResourceAll (nonResourceURL w) (rbac.NonResourceURLs rule).

(** Modelled from the spec: the test of the resource name is missing from
    the sources.  A rule without resource names is not restricted by name;
    a rule with resource names requires the resource name of the query to
    be present and to be one of them, so that a query without resource
    name does not match a rule restricted by name.  The formula of the
    spec, membership alone, and this sentence of the spec differ for one
    input only, a query without resource name against a rule that lists
    the empty name; the sentence is followed there. *)
Definition matchesResourceName (w : whoCan) (rule : rbac.PolicyRule) : bool :=
  bool_decide (rbac.ResourceNames rule = [])
  || (bool_decide (resourceName w ≠ EmptyString)
      && bool_decide (resourceName w ∈ rbac.ResourceNames rule)).

(** Modelled from the spec: the method [policyRuleMatches] of [whoCan] is
    missing from the sources (its table of tests is there).  Two modes,
    selected by whether the query carries a non-resource URL: in
    non-resource mode the verb and the URL decide; in resource mode the
    verb, the resource and the resource name do. *)
Definition policyRuleMatches (w : whoCan) (rule : rbac.PolicyRule) : bool :=
  if decide (nonResourceURL w ≠ EmptyString)
  then matchesVerb w rule && matchesNonResourceURL w rule
  else matchesVerb w rule && matchesResource w rule && matchesResourceName w rule.

(** Modelled from the spec: the declaration of [role] is missing from the
    sources; an identity is a name and a scope flag, under the field names
    that [TestMatch] uses. *)
Record role : Type := {
  name : string;
  isClusterRole : bool
}.

Global Instance role_eq_dec : EqDecision role.
Proof. solve_decision. Defined.

Global Instance role_countable : Countable role.
Proof.
  refine (inj_countable' (λ r, (name r, isClusterRole r))
                         (λ p, {| name := p.1; isClusterRole := p.2 |}) _).
  intros []; reflexivity.
Defined.

(** Modelled from the spec: the declaration of [roles] is missing from the
    sources; [TestMatch] makes it as a map from [role] to the empty struct,
    which is a set of its keys. *)
Definition roles : Type := gset role.

(** The assignment [r[entry] = struct{}{}] of [TestMatch]. *)
Definition roles_insert (entry : role) (r : roles) : roles := {[entry]} ∪ r.

(** Modelled from the spec: the method [match] of [roles] is missing from
    the sources (its test [TestMatch] is there).  The reference is looked
    up under its name and under the flag that tells whether its kind is the
    literal ClusterRole. *)
Definition roles_match (r : roles) (roleRef : rbac.RoleRef) : bool :=
  let key := {| name := rbac.Name roleRef;
                isClusterRole := bool_decide (rbac.Kind roleRef = "ClusterRole") |} in
  bool_decide (key ∈ r).

(** ** The order in which [indexResources] visits the discovery result *)

(** The keys under which one resource is stored: its plural name, then its
    short names. *)
Definition names (res : apismeta.APIResource) : list string :=
  apismeta.Name res :: apismeta.ShortNames res.

(** The resources that the discovery client lists for a group-version
    (none when the request fails). *)
Definition listed (rv : resourceResolver) (gv : string) : list apismeta.APIResource :=
  match discovery.ServerResourcesForGroupVersion (client rv) gv with
  | Ok rsList => apismeta.APIResources rsList
  | Err _ => []
  end.

(** The entries of [versions] that carry the group-version of the preferred
    version of [sg]. *)
Definition preferredOf (sg : apismeta.APIGroup)
    (versions : list apismeta.GroupVersionForDiscovery)
    : list apismeta.GroupVersionForDiscovery :=
  filter (λ version, apismeta.GroupVersion version
                     = apismeta.GroupVersion (apismeta.PreferredVersion sg)) versions.

(** The resources visited for the versions of one group, in order. *)
Definition visitedVersions (rv : resourceResolver) (sg : apismeta.APIGroup)
    (versions : list apismeta.GroupVersionForDiscovery) : list apismeta.APIResource :=
  preferredOf sg versions ≫= (λ version, listed rv (apismeta.GroupVersion version)).

(** The resources visited for a list of groups, in order. *)
Definition visitedGroups (rv : resourceResolver) (groups : list apismeta.APIGroup)
    : list apismeta.APIResource :=
  groups ≫= (λ sg, visitedVersions rv sg (apismeta.Versions sg)).

(** The resources visited by [indexResources], in order. *)
Definition visited (rv : resourceResolver) : list apismeta.APIResource :=
  match discovery.ServerGroups (client rv) with
  | Ok serverGroups => visitedGroups rv (apismeta.Groups serverGroups)
  | Err _ => []
  end.

(** The name that [Resolve] puts in its error for an unresolved resource. *)
Definition requestedName (resource subResource : string) : string :=
  if decide (subResource ≠ EmptyString)
  then resource +:+ "/" +:+ subResource
  else resource.

(** ** Sample clusters *)

Module sample.

Definition gv (s : string) : apismeta.GroupVersionForDiscovery :=
  {| apismeta.GroupVersion := s; apismeta.Version := s |}.

Definition pods : apismeta.APIResource :=
  {| apismeta.Name := "pods"; apismeta.Namespaced := true; apismeta.Kind := "Pod";
     apismeta.Verbs := ["get"; "list"; "delete"]; apismeta.ShortNames := ["po"] |}.

Definition podsLog : apismeta.APIResource :=
  {| apismeta.Name := "pods/log"; apismeta.Namespaced := true; apismeta.Kind := "Pod";
     apismeta.Verbs := ["get"]; apismeta.ShortNames := [] |}.

Definition persistentvolumes : apismeta.APIResource :=
  {| apismeta.Name := "persistentvolumes"; apismeta.Namespaced := false;
     apismeta.Kind := "PersistentVolume";
     apismeta.Verbs := ["get"; "list"; "delete"]; apismeta.ShortNames := ["pv"] |}.

Definition deployments : apismeta.APIResource :=
  {| apismeta.Name := "deployments"; apismeta.Namespaced := true;
     apismeta.Kind := "Deployment";
     apismeta.Verbs := ["get"; "list"; "patch"]; apismeta.ShortNames := ["deploy"] |}.

(** The same resource as the non-preferred version of its group lists it. *)
Definition deploymentsBeta : apismeta.APIResource :=
  {| apismeta.Name := "deployments"; apismeta.Namespaced := true;
     apismeta.Kind := "Deployment";
     apismeta.Verbs := ["get"]; apismeta.ShortNames := ["deploy"; "dp"] |}.

Definition groups : apismeta.APIGroupList :=
  {| apismeta.Groups :=
       [ {| apismeta.GroupName := EmptyString;
            apismeta.Versions := [gv "v1"];
            apismeta.PreferredVersion := gv "v1" |};
         {| apismeta.GroupName := "apps";
            apismeta.Versions := [gv "apps/v1beta1"; gv "apps/v1"];
            apismeta.PreferredVersion := gv "apps/v1" |} ] |}.

Definition resourcesOf (l : list apismeta.APIResource) (s : string)
    : result apismeta.APIResourceList :=
  Ok {| apismeta.ListGroupVersion := s; apismeta.APIResources := l |}.

Definition discoveryClient : discovery.DiscoveryInterface :=
  {| discovery.ServerGroups := Ok groups;
     discovery.ServerResourcesForGroupVersion := λ s,
       if decide (s = "v1") then resourcesOf [pods; podsLog; persistentvolumes] s
       else if decide (s = "apps/v1") then resourcesOf [deployments] s
       else if decide (s = "apps/v1beta1") then resourcesOf [deploymentsBeta] s
       else Err "the server could not find the requested resource" |}.

(** A mapper that knows the singular of pods and nothing else. *)
Definition restMapper : meta.RESTMapper :=
  {| meta.ResourceFor := λ gvr,
       if decide (schema.Resource gvr = "pod")
       then Ok {| schema.Group := EmptyString; schema.Version := "v1";
                  schema.Resource := "pods" |}
       else Err "no matches for resource" |}.

Definition resolver : resourceResolver := NewResourceResolver discoveryClient restMapper.

(** A cluster in which two resources share the short name x. *)
Definition first : apismeta.APIResource :=
  {| apismeta.Name := "a"; apismeta.Namespaced := true; apismeta.Kind := "A";
     apismeta.Verbs := ["get"]; apismeta.ShortNames := ["x"] |}.

Definition second : apismeta.APIResource :=
  {| apismeta.Name := "b"; apismeta.Namespaced := true; apismeta.Kind := "B";
     apismeta.Verbs := ["get"]; apismeta.ShortNames := ["x"] |}.

Definition collidingClient : discovery.DiscoveryInterface :=
  {| discovery.ServerGroups :=
       Ok {| apismeta.Groups :=
               [ {| apismeta.GroupName := EmptyString;
                    apismeta.Versions := [gv "v1"];
                    apismeta.PreferredVersion := gv "v1" |} ] |};
     discovery.ServerResourcesForGroupVersion := resourcesOf [first; second] |}.

Definition collidingResolver : resourceResolver :=
  NewResourceResolver collidingClient restMapper.

(** A cluster whose discovery endpoint cannot be reached. *)
Definition unreachableClient : discovery.DiscoveryInterface :=
  {| discovery.ServerGroups := Err "connection refused";
     discovery.ServerResourcesForGroupVersion := λ _, Err "connection refused" |}.

Definition unreachableResolver : resourceResolver :=
  NewResourceResolver unreachableClient restMapper.

(** A cluster that lists its groups but not the resources of a group. *)
Definition halfReachableClient : discovery.DiscoveryInterface :=
  {| discovery.ServerGroups := Ok groups;
     discovery.ServerResourcesForGroupVersion := λ s,
       if decide (s = "v1") then resourcesOf [pods; podsLog; persistentvolumes] s
       else Err "timeout" |}.

Definition halfReachableResolver : resourceResolver :=
  NewResourceResolver halfReachableClient restMapper.

Definition query (verb resource resourceName nonResourceURL : string) : whoCan :=
  {| verb := verb; resource := resource; nonResourceURL := nonResourceURL;
     subResource := EmptyString; resourceName := resourceName |}.

Definition rule (verbs resources resourceNames nonResourceURLs : list string)
    : rbac.PolicyRule :=
  {| rbac.Verbs := verbs; rbac.Resources := resources;
     rbac.ResourceNames := resourceNames; rbac.NonResourceURLs := nonResourceURLs |}.

Definition roleRef (kind name : string) : rbac.RoleRef :=
  {| rbac.APIGroup := "rbac.authorization.k8s.io"; rbac.Kind := kind; rbac.Name := name |}.

End sample.

(** ** [access_checker.go] *)

Module authz.

(** [authz.ResourceAttributes]. *)
Record ResourceAttributes : Type := {
  Namespace : string;
  Verb : string;
  Group : string;
  Version : string;
  Resource : string;
  Subresource : string;
  Name : string
}.

(** [authz.NonResourceAttributes]. *)
Record NonResourceAttributes : Type := {
  Path : string;
  NonResourceVerb : string
}.

(** [authz.SelfSubjectAccessReviewSpec]; a nil pointer is [None]. *)
Record SelfSubjectAccessReviewSpec : Type := {
  ResourceAttributesOf : option ResourceAttributes;
  NonResourceAttributesOf : option NonResourceAttributes
}.

(** [authz.SubjectAccessReviewStatus]. *)
Record SubjectAccessReviewStatus : Type := {
  Allowed : bool;
  Denied : bool;
  Reason : string;
  EvaluationError : string
}.

(** [authz.SelfSubjectAccessReview], without its metadata. *)
Record SelfSubjectAccessReview : Type := {
  Spec : SelfSubjectAccessReviewSpec;
  Status : SubjectAccessReviewStatus
}.

End authz.

Module clientauthz.

(** The one method of [SelfSubjectAccessReviewInterface] that is called. *)
Record SelfSubjectAccessReviewInterface : Type := {
  Create : authz.SelfSubjectAccessReview → result authz.SelfSubjectAccessReview
}.

End clientauthz.

Record accessChecker : Type := {
  reviewClient : clientauthz.SelfSubjectAccessReviewInterface
}.

Definition NewAccessChecker (client : clientauthz.SelfSubjectAccessReviewInterface)
    : accessChecker :=
  {| reviewClient := client |}.

(** The review that [IsAllowedTo] submits: resource attributes with the
    verb, the resource and the namespace, every other field at its zero
    value. *)
Definition accessReview (verb resource namespace : string)
    : authz.SelfSubjectAccessReview :=
  {| authz.Spec :=
       {| authz.ResourceAttributesOf :=
            Some {| authz.Namespace := namespace; authz.Verb := verb;
                    authz.Group := EmptyString; authz.Version := EmptyString;
                    authz.Resource := resource;
                    authz.Subresource := EmptyString;
                    authz.Name := EmptyString |};
          authz.NonResourceAttributesOf := None |};
     authz.Status :=
       {| authz.Allowed := false; authz.Denied := false;
          authz.Reason := EmptyString; authz.EvaluationError := EmptyString |} |}.

(** [IsAllowedTo] checks whether the current user is allowed to perform the
    given action in the specified namespace.  Both values of the Go result
    are kept: the flag, and the error or [None] for nil. *)
Definition IsAllowedTo (ac : accessChecker) (verb resource namespace : string)
    : bool * option error :=
  let sar := accessReview verb resource namespace in
  match clientauthz.Create (reviewClient ac) sar with
  | Err err => (false, Some err)
  | Ok sar => (authz.Allowed (authz.Status sar), None)
  end.

(** The review asks whether the verb may be performed on the resource in
    the namespace, and about nothing else: it has resource attributes with
    these three fields, no group, version, sub-resource or name, and no
    attributes of a non-resource URL. *)
Definition reviewsAction (sar : authz.SelfSubjectAccessReview)
    (verb resource namespace : string) : Prop :=
  authz.Spec sar
  = {| authz.ResourceAttributesOf :=
         Some {| authz.Namespace := namespace; authz.Verb := verb;
                 authz.Group := EmptyString; authz.Version := EmptyString;
                 authz.Resource := resource;
                 authz.Subresource := EmptyString;
                 authz.Name := EmptyString |};
       authz.NonResourceAttributesOf := None |}.

(** ** Statements about the visited resources *)

Global Instance APIResource_eq_dec : EqDecision apismeta.APIResource.
Proof. solve_decision. Defined.

(** No key is carried by two different resources of the list. *)
Definition collisionFree (rs : list apismeta.APIResource) : Prop :=
  Forall (λ d1, Forall (λ d2, Forall (λ k, k ∈ names d2 → d1 = d2) (names d1)) rs) rs.

(** Every resource of the list is stored under its own plural name. *)
Definition pluralNamesKept (index : gmap string apismeta.APIResource)
    (rs : list apismeta.APIResource) : Prop :=
  Forall (λ d, index !! apismeta.Name d = Some d) rs.

(** The preferred version of the group is one of its versions. *)
Definition preferredListed (sg : apismeta.APIGroup) : Prop :=
  Exists (λ version, apismeta.GroupVersion version
                     = apismeta.GroupVersion (apismeta.PreferredVersion sg))
         (apismeta.Versions sg).

(** The resources of the preferred version of the group can be listed, if
    the group lists that version at all. *)
Definition preferredFetched (rv : resourceResolver) (sg : apismeta.APIGroup) : Prop :=
  preferredListed sg →
  is_Ok (discovery.ServerResourcesForGroupVersion (client rv)
           (apismeta.GroupVersion (apismeta.PreferredVersion sg))) = true.

(** ** More sample clusters *)

Module fixtures.

(** A cluster whose only group does not list its preferred version, and
    whose resource lists cannot be fetched. *)
Definition strayPreferredClient : discovery.DiscoveryInterface :=
  {| discovery.ServerGroups :=
       Ok {| apismeta.Groups :=
               [ {| apismeta.GroupName := "batch";
                    apismeta.Versions := [sample.gv "batch/v1beta1"];
                    apismeta.PreferredVersion := sample.gv "batch/v1" |} ] |};
     discovery.ServerResourcesForGroupVersion := λ _, Err "unavailable" |}.

Definition strayPreferredResolver : resourceResolver :=
  NewResourceResolver strayPreferredClient sample.restMapper.

(** The sample cluster with its two groups in the other order. *)
Definition reorderedClient : discovery.DiscoveryInterface :=
  {| discovery.ServerGroups :=
       Ok {| apismeta.Groups := reverse (apismeta.Groups sample.groups) |};
     discovery.ServerResourcesForGroupVersion :=
       discovery.ServerResourcesForGroupVersion sample.discoveryClient |}.

Definition reorderedResolver : resourceResolver :=
  NewResourceResolver reorderedClient sample.restMapper.

(** A mapper that answers every token with pods. *)
Definition eagerMapper : meta.RESTMapper :=
  {| meta.ResourceFor := λ gvr,
       Ok {| schema.Group := "group"; schema.Version := "version";
             schema.Resource := "pods" |} |}.

(** A review client that allows listing in the namespace foo only and
    fails on reviews for the namespace broken. *)
Definition reviewer : clientauthz.SelfSubjectAccessReviewInterface :=
  {| clientauthz.Create := λ sar,
       match authz.ResourceAttributesOf (authz.Spec sar) with
       | Some attrs =>
           if decide (authz.Namespace attrs = "broken") then Err "forbidden"
           else
             Ok {| authz.Spec := authz.Spec sar;
                   authz.Status :=
                     {| authz.Allowed :=
                          bool_decide (authz.Namespace attrs = "foo"
                                       ∧ authz.Verb attrs = "list");
                        authz.Denied := false;
                        authz.Reason := EmptyString;
                        authz.EvaluationError := EmptyString |} |}
       | None => Err "no attributes"
       end |}.

(** A review client that answers as [reviewer] on reviews for the verb
    list in the namespace foo and fails on every other review. *)
Definition narrowReviewer : clientauthz.SelfSubjectAccessReviewInterface :=
  {| clientauthz.Create := λ sar,
       match authz.ResourceAttributesOf (authz.Spec sar) with
       | Some attrs =>
           if decide (authz.Namespace attrs = "foo" ∧ authz.Verb attrs = "list")
           then clientauthz.Create reviewer sar
           else Err "not answered"
       | None => Err "no attributes"
       end |}.

End fixtures.

(** * Properties *)

(** ** Messages *)

Lemma mentions_intro (before tok after : string) :
  mentions (before +:+ tok +:+ after) tok.
Proof. by exists before, after. Qed.

Lemma append_cons (ch : Ascii.ascii) (a b : string) :
  String ch a +:+ b = String ch (a +:+ b).
Proof. reflexivity. Qed.

Lemma append_assoc (a b c : string) : (a +:+ b) +:+ c = a +:+ (b +:+ c).
Proof. induction a as [|ch a IH]; [done | by rewrite !append_cons, IH]. Qed.

Lemma append_nil_r (a : string) : a +:+ EmptyString = a.
Proof. induction a as [|ch a IH]; [done | by rewrite append_cons, IH]. Qed.

Lemma mentions_quoted (before tok after : string) :
  mentions (before +:+ fmt.quoted tok +:+ after) tok.
Proof.
  exists (before +:+ fmt.dquote), (fmt.dquote +:+ after).
  unfold fmt.quoted. by rewrite !append_assoc.
Qed.

Lemma errNoResourceType_mentions (name : string) :
  mentions (errNoResourceType name) name.
Proof.
  unfold errNoResourceType.
  rewrite <- (append_nil_r (fmt.quoted name)). apply mentions_quoted.
Qed.

Lemma errNoResourceType_inj (n1 n2 : string) :
  errNoResourceType n1 = errNoResourceType n2 → n1 = n2.
Proof.
  unfold errNoResourceType, fmt.quoted. intros H.
  apply (inj (String.append _)) in H.
  apply (inj (String.append _)) in H.
  revert n2 H. induction n1 as [|c n1 IH]; intros [|c' n2];
    rewrite ?append_cons; intros H.
  - done.
  - injection H as <- H. by destruct n2.
  - injection H as -> H. by destruct n1.
  - injection H as <- H. f_equal. by apply IH.
Qed.

(** ** The index *)

Section index.

Implicit Types (m : gmap string apismeta.APIResource).
Implicit Types (res d : apismeta.APIResource) (k : string).
Implicit Types (rs : list apismeta.APIResource).

Lemma indexResource_names res m :
  indexResource res m = foldl (λ m k, <[k := res]> m) m (names res).
Proof.
  unfold indexResource, indexShortNames, names.
  by destruct (apismeta.ShortNames res).
Qed.

Lemma lookup_foldl_insert res (ks : list string) m k :
  foldl (λ m k, <[k := res]> m) m ks !! k
  = if decide (k ∈ ks) then Some res else m !! k.
Proof.
  revert m. induction ks as [|k' ks IH]; intros m; cbn [foldl].
  - rewrite decide_False; [done | apply not_elem_of_nil].
  - rewrite IH. destruct (decide (k ∈ ks)) as [Hin|Hin].
    + rewrite decide_True; [done | by right].
    + destruct (decide (k' = k)) as [->|Hne].
      * rewrite lookup_insert_eq, decide_True; [done | by left].
      * rewrite lookup_insert_ne by done.
        rewrite decide_False; [done |].
        intros [->|?]%elem_of_cons; done.
Qed.

Lemma lookup_indexResource res m k :
  indexResource res m !! k = if decide (k ∈ names res) then Some res else m !! k.
Proof. rewrite indexResource_names. apply lookup_foldl_insert. Qed.

Lemma indexAPIResources_app rs1 rs2 m :
  indexAPIResources (rs1 ++ rs2) m = indexAPIResources rs2 (indexAPIResources rs1 m).
Proof. revert m. induction rs1 as [|res rs1 IH]; intros m; simpl; [done | apply IH]. Qed.

(** A key that no visited resource carries keeps its entry. *)
Lemma lookup_indexAPIResources_other rs m k :
  (∀ res, res ∈ rs → k ∉ names res) →
  indexAPIResources rs m !! k = m !! k.
Proof.
  revert m. induction rs as [|res rs IH]; intros m Hrs; simpl; [done |].
  rewrite IH by (intros r Hr; apply Hrs; by right).
  rewrite lookup_indexResource, decide_False; [done |].
  apply Hrs. by left.
Qed.

(** The last visited resource that carries a key owns it. *)
Lemma lookup_indexAPIResources_last before d after m k :
  k ∈ names d →
  (∀ res, res ∈ after → k ∉ names res) →
  indexAPIResources (before ++ d :: after) m !! k = Some d.
Proof.
  intros Hk Hafter. rewrite indexAPIResources_app. simpl.
  rewrite lookup_indexAPIResources_other by done.
  by rewrite lookup_indexResource, decide_True.
Qed.

(** Every entry was there before or belongs to a visited resource that
    carries its key. *)
Lemma lookup_indexAPIResources_Some rs m k d :
  indexAPIResources rs m !! k = Some d →
  m !! k = Some d ∨ (d ∈ rs ∧ k ∈ names d).
Proof.
  revert m. induction rs as [|res rs IH]; intros m; simpl; [by left |].
  intros [H|[H1 H2]]%IH.
  - rewrite lookup_indexResource in H.
    destruct (decide (k ∈ names res)) as [Hin|Hin].
    + injection H as <-. right. split; [by left | done].
    + by left.
  - right. split; [by right | done].
Qed.

End index.

(** ** The loops of [indexResources] *)

Section loops.

Variable rv : resourceResolver.
Implicit Types (m index : gmap string apismeta.APIResource).
Implicit Types (sg : apismeta.APIGroup).

Lemma indexVersions_Ok sg versions m index :
  indexVersions rv sg versions m = Ok index →
  index = indexAPIResources (visitedVersions rv sg versions) m.
Proof.
  revert m. induction versions as [|version versions IH]; intros m; simpl.
  - by intros [= ->].
  - unfold visitedVersions, preferredOf. rewrite filter_cons.
    destruct (decide (apismeta.GroupVersion version
                      ≠ apismeta.GroupVersion (apismeta.PreferredVersion sg)))
      as [Hne|Heq].
    + rewrite decide_False by done. apply IH.
    + apply dec_stable in Heq. rewrite decide_True by done. simpl.
      unfold listed at 1.
      destruct (discovery.ServerResourcesForGroupVersion _ _) as [rsList|err];
        [|done].
      intros H%IH. by rewrite indexAPIResources_app.
Qed.

Lemma indexGroups_Ok groups m index :
  indexGroups rv groups m = Ok index →
  index = indexAPIResources (visitedGroups rv groups) m.
Proof.
  revert m. induction groups as [|sg groups IH]; intros m; simpl.
  - by intros [= ->].
  - destruct (indexVersions rv sg (apismeta.Versions sg) m) as [m'|err] eqn:Hv;
      [|done].
    intros H%IH. apply indexVersions_Ok in Hv. subst m'.
    unfold visitedGroups. simpl. by rewrite indexAPIResources_app.
Qed.

(** A successful [indexResources] stores the visited resources, in order,
    in an empty map. *)
Lemma indexResources_Ok index :
  indexResources rv = Ok index →
  index = indexAPIResources (visited rv) ∅.
Proof.
  unfold indexResources, visited.
  destruct (discovery.ServerGroups (client rv)) as [serverGroups|err]; [|done].
  apply indexGroups_Ok.
Qed.

(** The failures of the loops come from the resource lists. *)
Lemma indexVersions_Err sg versions m err :
  indexVersions rv sg versions m = Err err →
  ∃ version cause,
    version ∈ versions
    ∧ apismeta.GroupVersion version
      = apismeta.GroupVersion (apismeta.PreferredVersion sg)
    ∧ discovery.ServerResourcesForGroupVersion (client rv)
        (apismeta.GroupVersion version) = Err cause
    ∧ err = errGettingResources cause.
Proof.
  revert m. induction versions as [|version versions IH]; intros m; simpl; [done |].
  destruct (decide (apismeta.GroupVersion version
                    ≠ apismeta.GroupVersion (apismeta.PreferredVersion sg)))
    as [Hne|Heq].
  - intros (v & cause & Hv & H)%IH. exists v, cause. split; [by right | done].
  - apply dec_stable in Heq.
    destruct (discovery.ServerResourcesForGroupVersion _ _) as [rsList|cause] eqn:Hl.
    + intros (v & c & Hv & H)%IH. exists v, c. split; [by right | done].
    + intros [= <-]. exists version, cause. split; [by left | done].
Qed.

Lemma indexGroups_Err groups m err :
  indexGroups rv groups m = Err err →
  ∃ sg version cause,
    sg ∈ groups ∧ version ∈ apismeta.Versions sg
    ∧ apismeta.GroupVersion version
      = apismeta.GroupVersion (apismeta.PreferredVersion sg)
    ∧ discovery.ServerResourcesForGroupVersion (client rv)
        (apismeta.GroupVersion version) = Err cause
    ∧ err = errGettingResources cause.
Proof.
  revert m. induction groups as [|sg groups IH]; intros m; simpl; [done |].
  destruct (indexVersions rv sg (apismeta.Versions sg) m) as [m'|err'] eqn:Hv.
  - intros (sg' & v & cause & Hsg & H)%IH. exists sg', v, cause.
    split; [by right | done].
  - intros [= <-]. apply indexVersions_Err in Hv as (v & cause & H1 & H2).
    exists sg, v, cause. split; [by left | done].
Qed.

End loops.

(** ** Lookups and the verb check *)

Section resolve.

Variable rv : resourceResolver.
Implicit Types (index : gmap string apismeta.APIResource).
Implicit Types (d : apismeta.APIResource).

Lemma lookupResource_direct index resourceArg d :
  index !! resourceArg = Some d → lookupResource rv index resourceArg = Ok d.
Proof. unfold lookupResource. by intros ->. Qed.

Lemma lookupResource_unknown index resourceArg :
  index !! resourceArg = None →
  (∀ gvr,
     meta.ResourceFor (mapper rv)
       {| schema.Group := EmptyString; schema.Version := EmptyString;
          schema.Resource := resourceArg |} = Ok gvr →
     index !! schema.Resource gvr = None) →
  is_Err (lookupResource rv index resourceArg) = true.
Proof.
  unfold lookupResource. intros -> Hmap.
  destruct (meta.ResourceFor _ _) as [gvr|err]; [|done].
  by rewrite (Hmap gvr eq_refl).
Qed.

Lemma resourceFor_index_Err resourceArg subResource err :
  indexResources rv = Err err → resourceFor rv resourceArg subResource = Err err.
Proof. unfold resourceFor. by intros ->. Qed.

Lemma resourceFor_parent_Err index resourceArg subResource :
  indexResources rv = Ok index →
  is_Err (lookupResource rv index resourceArg) = true →
  is_Err (resourceFor rv resourceArg subResource) = true.
Proof.
  unfold resourceFor. intros ->.
  by destruct (lookupResource rv index resourceArg).
Qed.

Lemma resourceFor_plain index resourceArg d :
  indexResources rv = Ok index →
  lookupResource rv index resourceArg = Ok d →
  resourceFor rv resourceArg EmptyString = Ok d.
Proof. unfold resourceFor. by intros -> ->. Qed.

Lemma resourceFor_sub index resourceArg subResource parent :
  subResource ≠ EmptyString →
  indexResources rv = Ok index →
  lookupResource rv index resourceArg = Ok parent →
  resourceFor rv resourceArg subResource
  = lookupSubResource rv index (apismeta.Name parent +:+ "/" +:+ subResource).
Proof.
  unfold resourceFor. intros Hsub -> ->. rewrite decide_True by done.
  by destruct (lookupSubResource _ _ _).
Qed.

(** The loop with its flag is a membership test. *)
Lemma supported_loop verb (verbs : list string) (supported : bool) :
  foldl (λ (supported : bool) v, if decide (v = verb) then true else supported)
        supported verbs
  = supported || bool_decide (verb ∈ verbs).
Proof.
  revert supported. induction verbs as [|v verbs IH]; intros supported; cbn [foldl].
  - rewrite bool_decide_eq_false_2 by apply not_elem_of_nil.
    by rewrite orb_false_r.
  - rewrite IH. destruct (decide (v = verb)) as [->|Hne].
    + rewrite (bool_decide_eq_true_2 (verb ∈ verb :: verbs)) by (by left).
      by rewrite orb_true_r.
    + destruct (decide (verb ∈ verbs)) as [Hin|Hin].
      * rewrite !bool_decide_eq_true_2; [done | by right | done].
      * rewrite !bool_decide_eq_false_2; [done | | done].
        intros [->|?]%elem_of_cons; done.
Qed.

Lemma isVerbSupportedBy_spec verb d :
  isVerbSupportedBy rv verb d = true
  ↔ verb = rbac.VerbAll ∨ verb ∈ apismeta.Verbs d.
Proof.
  unfold isVerbSupportedBy. destruct (decide (verb = rbac.VerbAll)) as [->|Hne].
  - split; [by left | done].
  - rewrite supported_loop. simpl. rewrite bool_decide_eq_true.
    split; [by right | by intros [?|?]].
Qed.

Lemma Resolve_found verb resource subResource d :
  resource ≠ rbac.ResourceAll →
  resourceFor rv resource subResource = Ok d →
  Resolve rv verb resource subResource
  = if isVerbSupportedBy rv verb d then Ok (apismeta.Name d)
    else Err (errVerbNotSupported d verb).
Proof.
  unfold Resolve. intros Hres ->. rewrite decide_False by done.
  by destruct (isVerbSupportedBy rv verb d).
Qed.

Lemma Resolve_not_found verb resource subResource :
  resource ≠ rbac.ResourceAll →
  is_Err (resourceFor rv resource subResource) = true →
  Resolve rv verb resource subResource
  = Err (errNoResourceType (requestedName resource subResource)).
Proof.
  unfold Resolve, requestedName. intros Hres Herr. rewrite decide_False by done.
  by destruct (resourceFor rv resource subResource).
Qed.

Lemma Resolve_all verb subResource :
  Resolve rv verb rbac.ResourceAll subResource = Ok rbac.ResourceAll.
Proof. unfold Resolve. by rewrite decide_True. Qed.

End resolve.

(** ** The tables of tests of the sources *)

(** The rows A to L of [TestWhoCan_policyRuleMatches]. *)
Example policyRuleMatches_table :
  let q := sample.query in
  let r := sample.rule in
  map (λ row : whoCan * rbac.PolicyRule, policyRuleMatches row.1 row.2)
    [ (q "get" "services" EmptyString EmptyString, r ["get"; "list"] ["services"] [] []);
      (q "get" "services" EmptyString EmptyString, r ["get"; "list"] ["*"] [] []);
      (q "get" "services" EmptyString EmptyString, r ["*"] ["services"] [] []);
      (q "get" "services" "mongodb" EmptyString, r ["get"; "list"] ["services"] [] []);
      (q "get" "services" "mongodb" EmptyString,
         r ["get"; "list"] ["services"] ["mongodb"; "nginx"] []);
      (q "get" "services" "mongodb" EmptyString, r ["get"; "list"] ["services"] ["nginx"] []);
      (q "get" "services" EmptyString EmptyString, r ["get"; "list"] ["services"] ["nginx"] []);
      (q "get" "pods" EmptyString EmptyString, r ["create"] ["pods"] [] []);
      (q "get" "persistentvolumes" EmptyString EmptyString, r ["get"] ["pods"] [] []);
      (q "get" EmptyString EmptyString "/logs", r ["get"] [] [] ["/logs"]);
      (q "get" EmptyString EmptyString "/logs", r ["post"] [] [] ["/logs"]);
      (q "get" EmptyString EmptyString "/logs", r ["get"] [] [] ["/api"]) ]
  = [true; true; true; true; true; false; false; false; false; true; false; false].
Proof. vm_compute. reflexivity. Qed.

(** [TestMatch]. *)
Example TestMatch :
  let r := roles_insert {| name := "hello"; isClusterRole := false |} ∅ in
  roles_match r (sample.roleRef "Something else" "hello") = true
  ∧ roles_match r (sample.roleRef "ClusterRole" "hello") = false.
Proof. vm_compute. done. Qed.

(** The fourth end-to-end scenario: the short name pv with the verb
    delete. *)
Example resolve_pv :
  Resolve sample.resolver "delete" "pv" EmptyString = Ok "persistentvolumes".
Proof. vm_compute. reflexivity. Qed.

(** * The resolver and a failing discovery *)

(** C1, at a concrete call.  The discovery endpoint refuses the connection,
    so building the index fails with the wrapped error of the first
    discovery step; the caller of [Resolve] nevertheless receives the error
    of an unknown resource type, not the discovery error. *)
Lemma C1_discovery_error_is_lost :
  indexResources sample.unreachableResolver
  = Err (errGettingGroups "connection refused")
  ∧ Resolve sample.unreachableResolver "list" "pods" EmptyString
    = Err (errNoResourceType "pods")
  ∧ Resolve sample.unreachableResolver "list" "pods" EmptyString
    ≠ Err (errGettingGroups "connection refused").
Proof. vm_compute. repeat split; discriminate. Qed.

(** C1 (as amended).  When building the discovery index fails, the error of
    [indexResources] is the transport error behind the context of the step
    that failed, getting API groups or getting resources for API group, and
    [resourceFor] passes it on unchanged; [Resolve] replaces it: for every
    resource but the wildcard the caller receives the error of an unknown
    resource type for the requested name, the same as for a resource that
    does not exist. *)
Theorem C1_discovery_failure (rv : resourceResolver)
    (verb resource subResource : string) (err : error) :
  indexResources rv = Err err →
  ((∃ cause,
      discovery.ServerGroups (client rv) = Err cause
      ∧ err = errGettingGroups cause)
   ∨ (∃ gv cause,
        discovery.ServerResourcesForGroupVersion (client rv) gv = Err cause
        ∧ err = errGettingResources cause))
  ∧ resourceFor rv resource subResource = Err err
  ∧ (resource ≠ rbac.ResourceAll →
     Resolve rv verb resource subResource
     = Err (errNoResourceType (requestedName resource subResource))).
Proof.
  intros Hindex. split; [|split].
  - unfold indexResources in Hindex.
    destruct (discovery.ServerGroups (client rv)) as [serverGroups|cause].
    + right. apply indexGroups_Err in Hindex as (sg & v & cause & _ & _ & _ & H1 & H2).
      by exists (apismeta.GroupVersion v), cause.
    + left. injection Hindex as <-. by exists cause.
  - by apply resourceFor_index_Err.
  - intros Hres. apply Resolve_not_found; [done |].
    by rewrite (resourceFor_index_Err rv resource subResource err).
Qed.

Lemma C1_discovery_failure_witness :
  resourceFor sample.halfReachableResolver "deploy" "scale"
  = Err (errGettingResources "timeout")
  ∧ Resolve sample.halfReachableResolver "get" "deploy" "scale"
    = Err (errNoResourceType "deploy/scale").
Proof.
  destruct (C1_discovery_failure sample.halfReachableResolver
              "get" "deploy" "scale" (errGettingResources "timeout"))
    as (_ & Hfor & Hresolve).
  - vm_compute. reflexivity.
  - split; [exact Hfor | apply Hresolve; discriminate].
Defined.

(** * Names, short names and collisions *)




(** C10.  When the index is built, a key maps to the resource visited last
    among those that carry it as plural name or short name, whatever was
    stored under the key before; the key maps to that one descriptor
    only. *)
Theorem C10_last_occurrence_owns_key (rv : resourceResolver)
    (index : gmap string apismeta.APIResource)
    (before after : list apismeta.APIResource) (d : apismeta.APIResource)
    (k : string) :
  indexResources rv = Ok index →
  visited rv = before ++ d :: after →
  k ∈ names d →
  Forall (λ res, k ∉ names res) after →
  index !! k = Some d ∧ ∀ d', index !! k = Some d' → d' = d.
Proof.
  intros Hindex Hvisited Hk Hafter.
  apply indexResources_Ok in Hindex as ->. rewrite Hvisited.
  assert (indexAPIResources (before ++ d :: after) ∅ !! k = Some d) as Hlookup.
  { apply lookup_indexAPIResources_last; [done |]. by apply Forall_forall. }
  split; [done |]. intros d' Hd'. congruence.
Qed.

(** The colliding short name x leads to the second resource; the first one
    cannot be reached under it. *)
Lemma C10_last_occurrence_owns_key_witness :
  indexAPIResources [sample.first; sample.second] ∅ !! "x" = Some sample.second
  ∧ ∀ d', indexAPIResources [sample.first; sample.second] ∅ !! "x" = Some d' →
          d' = sample.second.
Proof.
  apply (C10_last_occurrence_owns_key sample.collidingResolver
           (indexAPIResources [sample.first; sample.second] ∅)
           [sample.first] [] sample.second "x").
  - vm_compute. reflexivity.
  - vm_compute. reflexivity.
  - apply (bool_decide_unpack _). vm_compute. exact I.
  - apply (bool_decide_unpack _). vm_compute. exact I.
Defined.

(** * Preferred versions *)

(** The loops read the resource lists of preferred versions only: two
    clients that agree on them build the same index. *)
Lemma indexVersions_preferred_only (rv rv' : resourceResolver)
    (sg : apismeta.APIGroup) (versions : list apismeta.GroupVersionForDiscovery)
    (m : gmap string apismeta.APIResource) :
  discovery.ServerResourcesForGroupVersion (client rv')
    (apismeta.GroupVersion (apismeta.PreferredVersion sg))
  = discovery.ServerResourcesForGroupVersion (client rv)
      (apismeta.GroupVersion (apismeta.PreferredVersion sg)) →
  indexVersions rv' sg versions m = indexVersions rv sg versions m.
Proof.
  intros Hagree. revert m.
  induction versions as [|version versions IH]; intros m; simpl; [done |].
  destruct (decide (apismeta.GroupVersion version
                    ≠ apismeta.GroupVersion (apismeta.PreferredVersion sg)))
    as [Hne|Heq]; [apply IH |].
  apply dec_stable in Heq. rewrite Heq, Hagree.
  destruct (discovery.ServerResourcesForGroupVersion (client rv) _);
    [apply IH | done].
Qed.

Lemma indexGroups_preferred_only (rv rv' : resourceResolver)
    (groups : list apismeta.APIGroup) (m : gmap string apismeta.APIResource) :
  (∀ sg, sg ∈ groups →
     discovery.ServerResourcesForGroupVersion (client rv')
       (apismeta.GroupVersion (apismeta.PreferredVersion sg))
     = discovery.ServerResourcesForGroupVersion (client rv)
         (apismeta.GroupVersion (apismeta.PreferredVersion sg))) →
  indexGroups rv' groups m = indexGroups rv groups m.
Proof.
  revert m. induction groups as [|sg groups IH]; intros m Hagree; simpl; [done |].
  rewrite (indexVersions_preferred_only rv rv') by (apply Hagree; by left).
  destruct (indexVersions rv sg (apismeta.Versions sg) m); [|done].
  apply IH. intros sg' Hsg'. apply Hagree. by right.
Qed.

(** Every visited resource is listed for the preferred version of a
    group. *)
Lemma elem_of_visitedGroups (rv : resourceResolver)
    (groups : list apismeta.APIGroup) (d : apismeta.APIResource) :
  d ∈ visitedGroups rv groups →
  ∃ sg version rsList,
    sg ∈ groups ∧ version ∈ apismeta.Versions sg
    ∧ apismeta.GroupVersion version
      = apismeta.GroupVersion (apismeta.PreferredVersion sg)
    ∧ discovery.ServerResourcesForGroupVersion (client rv)
        (apismeta.GroupVersion version) = Ok rsList
    ∧ d ∈ apismeta.APIResources rsList.
Proof.
  unfold visitedGroups, visitedVersions, preferredOf.
  intros (sg & Hd & Hsg)%list_elem_of_bind.
  apply list_elem_of_bind in Hd as (version & Hd & Hversion).
  apply list_elem_of_filter in Hversion as [Hpref Hversion].
  unfold listed in Hd.
  destruct (discovery.ServerResourcesForGroupVersion _ _) as [rsList|err] eqn:Hl.
  - by exists sg, version, rsList.
  - by apply elem_of_nil in Hd.
Qed.

(** C9.  In a successfully built index every descriptor, under every key,
    comes from the list of resources of a group-version that is the
    preferred version of its group; and the lists of the other
    group-versions have no influence on the index: a discovery client that
    differs on them only builds the same index. *)
Theorem C9_only_preferred_versions (rv : resourceResolver)
    (index : gmap string apismeta.APIResource) :
  indexResources rv = Ok index →
  (∀ k d, index !! k = Some d →
     ∃ serverGroups sg version rsList,
       discovery.ServerGroups (client rv) = Ok serverGroups
       ∧ sg ∈ apismeta.Groups serverGroups
       ∧ version ∈ apismeta.Versions sg
       ∧ apismeta.GroupVersion version
         = apismeta.GroupVersion (apismeta.PreferredVersion sg)
       ∧ discovery.ServerResourcesForGroupVersion (client rv)
           (apismeta.GroupVersion version) = Ok rsList
       ∧ d ∈ apismeta.APIResources rsList
       ∧ k ∈ names d)
  ∧ (∀ rv' serverGroups,
       discovery.ServerGroups (client rv) = Ok serverGroups →
       discovery.ServerGroups (client rv') = Ok serverGroups →
       (∀ sg, sg ∈ apismeta.Groups serverGroups →
          discovery.ServerResourcesForGroupVersion (client rv')
            (apismeta.GroupVersion (apismeta.PreferredVersion sg))
          = discovery.ServerResourcesForGroupVersion (client rv)
              (apismeta.GroupVersion (apismeta.PreferredVersion sg))) →
       indexResources rv' = Ok index).
Proof.
  intros Hindex. split.
  - intros k d Hk.
    pose proof (indexResources_Ok rv index Hindex) as ->.
    apply lookup_indexAPIResources_Some in Hk as [Hk|[Hd Hk]].
    { by rewrite lookup_empty in Hk. }
    unfold visited in Hd.
    destruct (discovery.ServerGroups (client rv)) as [serverGroups|err] eqn:Hg.
    + apply elem_of_visitedGroups in Hd as (sg & v & rsList & H1 & H2 & H3 & H4 & H5).
      by exists serverGroups, sg, v, rsList.
    + by apply elem_of_nil in Hd.
  - intros rv' serverGroups Hg Hg' Hagree.
    unfold indexResources in *. rewrite Hg in Hindex. rewrite Hg'.
    by rewrite (indexGroups_preferred_only rv rv').
Qed.

(** The sample cluster lists deployments twice, with the short name dp in
    the version that is not preferred.  A client that cannot list that
    version at all builds the same index, in which dp is no key. *)
Lemma C9_only_preferred_versions_witness :
  let rv' :=
    NewResourceResolver
      {| discovery.ServerGroups := Ok sample.groups;
         discovery.ServerResourcesForGroupVersion := λ s,
           if decide (s = "apps/v1beta1") then Err "gone"
           else discovery.ServerResourcesForGroupVersion sample.discoveryClient s |}
      sample.restMapper in
  indexResources rv' = Ok (indexAPIResources (visited sample.resolver) ∅)
  ∧ indexAPIResources (visited sample.resolver) ∅ !! "dp" = None
  ∧ indexAPIResources (visited sample.resolver) ∅ !! "deploy"
    = Some sample.deployments.
Proof.
  intros rv'. split; [|vm_compute; done].
  apply (C9_only_preferred_versions sample.resolver
           (indexAPIResources (visited sample.resolver) ∅))
    with (serverGroups := sample.groups).
  - vm_compute. reflexivity.
  - reflexivity.
  - reflexivity.
  - apply Forall_forall. repeat constructor.
Defined.

(** * Sub-resources *)

(** C6, at a concrete call.  The short name po resolves to pods, and
    nothing is stored under the compound key pods/logz.  [resourceFor]
    fails on that key, but the error of [Resolve] is the error of an
    unknown resource type for po/logz, the token as it was given and the
    sub-resource, not for the compound key. *)
Lemma C6_error_names_the_token :
  indexResources sample.resolver = Ok (indexAPIResources (visited sample.resolver) ∅)
  ∧ lookupResource sample.resolver (indexAPIResources (visited sample.resolver) ∅) "po"
    = Ok sample.pods
  ∧ indexAPIResources (visited sample.resolver) ∅ !! "pods/logz" = None
  ∧ resourceFor sample.resolver "po" "logz" = Err (errNotFound "pods/logz")
  ∧ Resolve sample.resolver "get" "po" "logz" = Err (errNoResourceType "po/logz")
  ∧ Resolve sample.resolver "get" "po" "logz" ≠ Err (errNoResourceType "pods/logz").
Proof. vm_compute. repeat split; discriminate. Qed.

(** C6 (as amended).  In a call of [Resolve] with a sub-resource, once the parent
    resource is found the index is looked up again under the plural name
    of the parent, a slash and the sub-resource.  When nothing is stored
    under that key, [resourceFor] fails on the key and the call fails with
    the error of an unknown resource type for the requested resource, a
    slash and the sub-resource; when a descriptor is stored there, the
    verb is checked against that descriptor and the descriptor of the
    parent plays no part in the result. *)
Theorem C6_sub_resource (rv : resourceResolver)
    (index : gmap string apismeta.APIResource) (parent : apismeta.APIResource)
    (verb resource subResource : string) :
  resource ≠ rbac.ResourceAll →
  subResource ≠ EmptyString →
  indexResources rv = Ok index →
  lookupResource rv index resource = Ok parent →
  resourceFor rv resource subResource
  = lookupSubResource rv index (apismeta.Name parent +:+ "/" +:+ subResource)
  ∧ match index !! (apismeta.Name parent +:+ "/" +:+ subResource) with
    | None =>
        resourceFor rv resource subResource
        = Err (errNotFound (apismeta.Name parent +:+ "/" +:+ subResource))
        ∧ Resolve rv verb resource subResource
          = Err (errNoResourceType (resource +:+ "/" +:+ subResource))
    | Some sub =>
        resourceFor rv resource subResource = Ok sub
        ∧ Resolve rv verb resource subResource
          = if isVerbSupportedBy rv verb sub then Ok (apismeta.Name sub)
            else Err (errVerbNotSupported sub verb)
    end.
Proof.
  intros Hres Hsub Hindex Hparent.
  pose proof (resourceFor_sub rv index resource subResource parent
                Hsub Hindex Hparent) as Hfor.
  split; [done |]. unfold lookupSubResource in Hfor.
  destruct (index !! (apismeta.Name parent +:+ "/" +:+ subResource)) as [sub|].
  - split; [done |]. by apply Resolve_found.
  - split; [done |]. rewrite Resolve_not_found; [| done | by rewrite Hfor].
    unfold requestedName. by rewrite decide_True.
Qed.

(** The short name po with two sub-resources.  With log, the parent pods
    supports the verb list, its sub-resource does not, and the call is
    refused for the verb.  With logz, nothing is stored under pods/logz
    and the call is refused for the name po/logz. *)
Lemma C6_sub_resource_witness :
  Resolve sample.resolver "list" "po" "log"
  = Err (errVerbNotSupported sample.podsLog "list")
  ∧ isVerbSupportedBy sample.resolver "list" sample.pods = true
  ∧ resourceFor sample.resolver "po" "logz" = Err (errNotFound "pods/logz")
  ∧ Resolve sample.resolver "list" "po" "logz" = Err (errNoResourceType "po/logz").
Proof.
  split; [|split; [vm_compute; reflexivity |]].
  - destruct (C6_sub_resource sample.resolver
                (indexAPIResources (visited sample.resolver) ∅) sample.pods
                "list" "po" "log") as [_ H].
    + discriminate.
    + discriminate.
    + vm_compute. reflexivity.
    + vm_compute. reflexivity.
    + vm_compute in H. vm_compute. exact (proj2 H).
  - destruct (C6_sub_resource sample.resolver
                (indexAPIResources (visited sample.resolver) ∅) sample.pods
                "list" "po" "logz") as [_ H].
    + discriminate.
    + discriminate.
    + vm_compute. reflexivity.
    + vm_compute. reflexivity.
    + vm_compute in H. vm_compute. exact H.
Defined.

(** * The verb check *)

(** C7.  For the descriptor that a call resolves, the verb check passes
    exactly when the verb is the wildcard or one of the verbs of the
    descriptor.  With the wildcard verb [Resolve] succeeds whatever verbs
    the descriptor has.  With another verb that the descriptor does not
    have, [Resolve] fails and the message of its error contains the plural
    name of the resolved resource, the verb, and the list of all verbs of
    the descriptor. *)
Theorem C7_verb_check (rv : resourceResolver) (d : apismeta.APIResource)
    (verb resource subResource : string) :
  resource ≠ rbac.ResourceAll →
  resourceFor rv resource subResource = Ok d →
  (isVerbSupportedBy rv verb d = true
   ↔ verb = rbac.VerbAll ∨ verb ∈ apismeta.Verbs d)
  ∧ Resolve rv verb resource subResource
    = (if isVerbSupportedBy rv verb d then Ok (apismeta.Name d)
       else Err (errVerbNotSupported d verb))
  ∧ Resolve rv rbac.VerbAll resource subResource = Ok (apismeta.Name d)
  ∧ (verb ≠ rbac.VerbAll → verb ∉ apismeta.Verbs d →
     Resolve rv verb resource subResource = Err (errVerbNotSupported d verb)
     ∧ mentions (errVerbNotSupported d verb) (apismeta.Name d)
     ∧ mentions (errVerbNotSupported d verb) verb
     ∧ mentions (errVerbNotSupported d verb) (fmt.verb_v (apismeta.Verbs d))).
Proof.
  intros Hres Hfor.
  pose proof (Resolve_found rv verb resource subResource d Hres Hfor) as Hverb.
  split; [apply isVerbSupportedBy_spec |]. split; [done |]. split.
  - rewrite (Resolve_found rv _ resource subResource d) by done.
    by rewrite (proj2 (isVerbSupportedBy_spec rv rbac.VerbAll d)) by (by left).
  - intros Hne Hnotin.
    assert (isVerbSupportedBy rv verb d = false) as Hno.
    { apply not_true_is_false. intros [?|?]%isVerbSupportedBy_spec; done. }
    rewrite Hno in Hverb. split; [done |]. unfold errVerbNotSupported.
    split; [|split].
    + apply (mentions_quoted "the ").
    + exists ("the " +:+ fmt.quoted (apismeta.Name d)
              +:+ " resource does not support the " +:+ fmt.dquote),
             (fmt.dquote +:+ " verb, only " +:+ fmt.verb_v (apismeta.Verbs d)).
      unfold fmt.quoted. by rewrite !append_assoc.
    + exists ("the " +:+ fmt.quoted (apismeta.Name d)
              +:+ " resource does not support the " +:+ fmt.quoted verb
              +:+ " verb, only "), EmptyString.
      by rewrite append_nil_r, !append_assoc.
Qed.

Lemma C7_verb_check_witness :
  Resolve sample.resolver "*" "deployments" EmptyString = Ok "deployments"
  ∧ Resolve sample.resolver "delete" "deployments" EmptyString
    = Err (errVerbNotSupported sample.deployments "delete")
  ∧ errVerbNotSupported sample.deployments "delete"
    = "the " +:+ fmt.quoted "deployments" +:+ " resource does not support the "
      +:+ fmt.quoted "delete" +:+ " verb, only [get list patch]".
Proof.
  destruct (C7_verb_check sample.resolver sample.deployments
              "delete" "deployments" EmptyString) as (_ & _ & Hall & Hno).
  - discriminate.
  - vm_compute. reflexivity.
  - split; [exact Hall |]. split; [|vm_compute; reflexivity].
    apply Hno; [discriminate |].
    apply (bool_decide_unpack _). vm_compute. exact I.
Defined.

(** * Unknown resources *)

(** C8, at a concrete call.  The wildcard is no key of the index of the
    sample cluster and the REST mapper does not know it, yet [Resolve]
    succeeds on it. *)
Lemma C8_wildcard_is_not_looked_up :
  indexResources sample.resolver = Ok (indexAPIResources (visited sample.resolver) ∅)
  ∧ indexAPIResources (visited sample.resolver) ∅ !! "*" = None
  ∧ meta.ResourceFor (mapper sample.resolver)
      {| schema.Group := EmptyString; schema.Version := EmptyString;
         schema.Resource := "*" |}
    = Err "no matches for resource"
  ∧ Resolve sample.resolver "get" "*" EmptyString = Ok "*".
Proof. vm_compute. done. Qed.

(** C8 (as amended).  For every resource token other than the wildcard
    that is no key of the index, and that the REST mapper cannot map or
    maps to a name that is no key either, [Resolve] fails and the message
    of its error contains the token as it was given; when a sub-resource
    was given too the name in the message is the token, a slash and the
    sub-resource. *)
Theorem C8_unknown_resource (rv : resourceResolver)
    (index : gmap string apismeta.APIResource)
    (verb resource subResource : string) :
  resource ≠ rbac.ResourceAll →
  indexResources rv = Ok index →
  index !! resource = None →
  (∀ gvr,
     meta.ResourceFor (mapper rv)
       {| schema.Group := EmptyString; schema.Version := EmptyString;
          schema.Resource := resource |} = Ok gvr →
     index !! schema.Resource gvr = None) →
  ∃ name,
    Resolve rv verb resource subResource = Err (errNoResourceType name)
    ∧ mentions (errNoResourceType name) name
    ∧ (subResource = EmptyString → name = resource)
    ∧ (subResource ≠ EmptyString → name = resource +:+ "/" +:+ subResource).
Proof.
  intros Hres Hindex Hdirect Hmapped.
  exists (requestedName resource subResource). split; [|split; [|split]].
  - apply Resolve_not_found; [done |].
    eapply resourceFor_parent_Err; [done |].
    by apply lookupResource_unknown.
  - apply errNoResourceType_mentions.
  - intros ->. unfold requestedName. by rewrite decide_False by (by intros ?).
  - intros Hsub. unfold requestedName. by rewrite decide_True.
Qed.

Lemma C8_unknown_resource_witness :
  ∃ name,
    Resolve sample.resolver "get" "pdz" "log" = Err (errNoResourceType name)
    ∧ mentions (errNoResourceType name) name
    ∧ ("log" = EmptyString → name = "pdz")
    ∧ ("log" ≠ EmptyString → name = "pdz" +:+ "/" +:+ "log").
Proof.
  apply (C8_unknown_resource sample.resolver
           (indexAPIResources (visited sample.resolver) ∅) "get" "pdz" "log").
  - discriminate.
  - vm_compute. reflexivity.
  - vm_compute. reflexivity.
  - intros gvr H. vm_compute in H. discriminate H.
Defined.

(** * The policy rule matcher *)

Section matcher.

Implicit Types (w : whoCan) (rule : rbac.PolicyRule).

Lemma memberOrWildcard_nil wildcard value :
  memberOrWildcard wildcard value [] = false.
Proof.
  unfold memberOrWildcard.
  by rewrite !bool_decide_eq_false_2 by apply not_elem_of_nil.
Qed.

Lemma policyRuleMatches_resource_mode w rule :
  nonResourceURL w = EmptyString →
  policyRuleMatches w rule
  = matchesVerb w rule && matchesResource w rule && matchesResourceName w rule.
Proof.
  unfold policyRuleMatches. intros ->. by rewrite decide_False by (by intros ?).
Qed.

Lemma policyRuleMatches_url_mode w rule :
  nonResourceURL w ≠ EmptyString →
  policyRuleMatches w rule = matchesVerb w rule && matchesNonResourceURL w rule.
Proof. unfold policyRuleMatches. intros H. by rewrite decide_True. Qed.

End matcher.



(** C3.  The two modes are disjoint.  A rule without resources matches no
    query in resource mode, whatever its non-resource URLs are; a rule
    without non-resource URLs matches no query that carries a non-resource
    URL, whatever its resources are; and for a query that carries a
    non-resource URL the resources and the resource names of the rule do
    not count: replacing them by any others leaves the answer as it is. *)
Theorem C3_modes_disjoint (w : whoCan) (rule : rbac.PolicyRule) :
  (nonResourceURL w = EmptyString → rbac.Resources rule = [] →
   policyRuleMatches w rule = false)
  ∧ (nonResourceURL w ≠ EmptyString → rbac.NonResourceURLs rule = [] →
     policyRuleMatches w rule = false)
  ∧ (nonResourceURL w ≠ EmptyString →
     ∀ resources resourceNames : list string,
       policyRuleMatches w
         {| rbac.Verbs := rbac.Verbs rule; rbac.Resources := resources;
            rbac.ResourceNames := resourceNames;
            rbac.NonResourceURLs := rbac.NonResourceURLs rule |}
       = policyRuleMatches w rule).
Proof.
  split; [|split].
  - intros Hmode Hnil. rewrite policyRuleMatches_resource_mode by done.
    unfold matchesResource. rewrite Hnil, memberOrWildcard_nil.
    by rewrite andb_false_r.
  - intros Hmode Hnil. rewrite policyRuleMatches_url_mode by done.
    unfold matchesNonResourceURL. rewrite Hnil, memberOrWildcard_nil.
    by rewrite andb_false_r.
  - intros Hmode resources resourceNames.
    by rewrite !policyRuleMatches_url_mode.
Qed.

Lemma C3_modes_disjoint_witness :
  policyRuleMatches (sample.query "get" "pods" EmptyString EmptyString)
    (sample.rule ["get"] [] [] ["/logs"; "*"]) = false
  ∧ policyRuleMatches (sample.query "get" EmptyString EmptyString "/logs")
      (sample.rule ["get"] ["*"] [] []) = false.
Proof.
  split.
  - apply (proj1 (C3_modes_disjoint
                    (sample.query "get" "pods" EmptyString EmptyString)
                    (sample.rule ["get"] [] [] ["/logs"; "*"]))); reflexivity.
  - apply (proj1 (proj2 (C3_modes_disjoint
                           (sample.query "get" EmptyString EmptyString "/logs")
                           (sample.rule ["get"] ["*"] [] []))));
      [discriminate | reflexivity].
Defined.

(** * The role reference index *)

Section roles.

Implicit Types (r : roles) (entry : role) (roleRef : rbac.RoleRef).

(** Inserting a list of entries one after the other, first to last. *)
Lemma foldl_roles_insert (entries : list role) r :
  foldl (λ r entry, roles_insert entry r) r entries = list_to_set entries ∪ r.
Proof.
  revert r. induction entries as [|entry entries IH]; intros r; cbn [foldl].
  - simpl. by rewrite (left_id_L ∅ (∪)).
  - rewrite IH. unfold roles_insert. simpl. apply set_eq. intros x.
    rewrite !elem_of_union. tauto.
Qed.

Lemma role_eta entry n (b : bool) :
  name entry = n → isClusterRole entry = b →
  entry = {| name := n; isClusterRole := b |}.
Proof. destruct entry. simpl. by intros -> ->. Qed.

End roles.

(** C4.  The answer of [match] depends on the entries of the index only:
    it is true exactly when an entry has the name of the reference and a
    cluster flag that tells whether the kind of the reference is the
    literal ClusterRole.  Entries inserted in one order or another give the
    same answers.  Inserting a namespaced role, whatever its name, changes
    no answer for a reference of kind ClusterRole, and a reference of any
    other kind is looked up as a namespaced role. *)
Theorem C4_role_reference_index (r : roles) (roleRef : rbac.RoleRef) :
  (roles_match r roleRef = true
   ↔ ∃ entry, entry ∈ r
       ∧ name entry = rbac.Name roleRef
       ∧ isClusterRole entry = bool_decide (rbac.Kind roleRef = "ClusterRole"))
  ∧ (∀ entries entries' : list role, entries ≡ₚ entries' →
       roles_match (foldl (λ r entry, roles_insert entry r) r entries) roleRef
       = roles_match (foldl (λ r entry, roles_insert entry r) r entries') roleRef)
  ∧ (∀ n, rbac.Kind roleRef = "ClusterRole" →
       roles_match (roles_insert {| name := n; isClusterRole := false |} r) roleRef
       = roles_match r roleRef)
  ∧ (rbac.Kind roleRef ≠ "ClusterRole" →
     roles_match r roleRef
     = bool_decide ({| name := rbac.Name roleRef; isClusterRole := false |} ∈ r)).
Proof.
  split; [|split; [|split]].
  - unfold roles_match. rewrite bool_decide_eq_true. split.
    + intros Hin. eexists. split; [exact Hin | done].
    + intros (entry & Hin & Hname & Hflag).
      by rewrite <- (role_eta entry _ _ Hname Hflag).
  - intros entries entries' Hperm. rewrite !foldl_roles_insert.
    unfold roles_match. apply bool_decide_ext.
    rewrite !elem_of_union, !elem_of_list_to_set. by rewrite Hperm.
  - intros n Hkind. unfold roles_match, roles_insert. rewrite Hkind.
    apply bool_decide_ext. rewrite elem_of_union, elem_of_singleton.
    split; [|by right]. intros [Heq|Hin]; [|done].
    rewrite bool_decide_eq_true_2 in Heq by done. discriminate Heq.
  - intros Hkind. unfold roles_match. by rewrite (bool_decide_eq_false_2 _ Hkind).
Qed.

(** A namespaced role named edit in the index does not satisfy a reference
    to the cluster role of that name. *)
Lemma C4_role_reference_index_witness :
  roles_match (roles_insert {| name := "edit"; isClusterRole := false |} ∅)
    (sample.roleRef "ClusterRole" "edit") = false
  ∧ roles_match (roles_insert {| name := "edit"; isClusterRole := false |} ∅)
      (sample.roleRef "Role" "edit") = true.
Proof.
  split.
  - destruct (C4_role_reference_index ∅ (sample.roleRef "ClusterRole" "edit"))
      as (_ & _ & H & _).
    rewrite (H "edit" eq_refl). vm_compute. reflexivity.
  - destruct (C4_role_reference_index
                (roles_insert {| name := "edit"; isClusterRole := false |} ∅)
                (sample.roleRef "Role" "edit")) as (_ & _ & _ & H).
    rewrite H by discriminate. vm_compute. reflexivity.
Defined.


(** * Further properties of the resolver *)

(** ** When the index can be built *)

Section build.

Variable rv : resourceResolver.
Implicit Types (m index : gmap string apismeta.APIResource).
Implicit Types (sg : apismeta.APIGroup).

Lemma indexVersions_skip sg versions m :
  Forall (λ version, apismeta.GroupVersion version
                     ≠ apismeta.GroupVersion (apismeta.PreferredVersion sg)) versions →
  indexVersions rv sg versions m = Ok m.
Proof.
  induction 1 as [|version versions Hne _ IH]; simpl; [done |].
  by rewrite decide_True.
Qed.

Lemma indexVersions_fetched sg versions m :
  is_Ok (discovery.ServerResourcesForGroupVersion (client rv)
           (apismeta.GroupVersion (apismeta.PreferredVersion sg))) = true →
  is_Ok (indexVersions rv sg versions m) = true.
Proof.
  intros Hfetch. revert m.
  induction versions as [|version versions IH]; intros m; simpl; [done |].
  destruct (decide (apismeta.GroupVersion version
                    ≠ apismeta.GroupVersion (apismeta.PreferredVersion sg)))
    as [Hne|Heq]; [apply IH |].
  apply dec_stable in Heq. rewrite Heq.
  destruct (discovery.ServerResourcesForGroupVersion (client rv) _);
    [apply IH | done].
Qed.

Lemma indexVersions_failed sg versions m cause :
  Exists (λ version, apismeta.GroupVersion version
                     = apismeta.GroupVersion (apismeta.PreferredVersion sg)) versions →
  discovery.ServerResourcesForGroupVersion (client rv)
    (apismeta.GroupVersion (apismeta.PreferredVersion sg)) = Err cause →
  indexVersions rv sg versions m = Err (errGettingResources cause).
Proof.
  intros Hlisted Hfetch.
  induction Hlisted as [version versions Heq|version versions _ IH]; simpl.
  - rewrite decide_False by (by intros ?). by rewrite Heq, Hfetch.
  - destruct (decide (apismeta.GroupVersion version
                      ≠ apismeta.GroupVersion (apismeta.PreferredVersion sg)))
      as [Hne|Heq]; [done |].
    apply dec_stable in Heq. by rewrite Heq, Hfetch.
Qed.

Lemma indexVersions_is_Ok sg m :
  is_Ok (indexVersions rv sg (apismeta.Versions sg) m) = true ↔ preferredFetched rv sg.
Proof.
  unfold preferredFetched, preferredListed. split.
  - intros Hok Hlisted.
    destruct (discovery.ServerResourcesForGroupVersion (client rv) _)
      as [rsList|cause] eqn:Hfetch; [done |].
    by rewrite (indexVersions_failed sg _ m cause Hlisted Hfetch) in Hok.
  - intros Hfetched.
    destruct (decide (Exists (λ version, apismeta.GroupVersion version
                = apismeta.GroupVersion (apismeta.PreferredVersion sg))
                (apismeta.Versions sg))) as [Hlisted|Hnone].
    + by apply indexVersions_fetched, Hfetched.
    + rewrite indexVersions_skip; [done |].
      by apply not_Exists_Forall; [intros ?; apply _ |].
Qed.

Lemma indexGroups_app groups1 groups2 m :
  indexGroups rv (groups1 ++ groups2) m
  = match indexGroups rv groups1 m with
    | Ok m' => indexGroups rv groups2 m'
    | Err err => Err err
    end.
Proof.
  revert m. induction groups1 as [|sg groups1 IH]; intros m; simpl; [done |].
  by destruct (indexVersions rv sg (apismeta.Versions sg) m).
Qed.

Lemma indexGroups_is_Ok groups m :
  is_Ok (indexGroups rv groups m) = true ↔ Forall (preferredFetched rv) groups.
Proof.
  revert m. induction groups as [|sg groups IH]; intros m; simpl.
  - split; [by constructor | done].
  - rewrite Forall_cons, <- (indexVersions_is_Ok sg m).
    destruct (indexVersions rv sg (apismeta.Versions sg) m) as [m'|err]; simpl.
    + rewrite IH. tauto.
    + split; [done | by intros [? _]].
Qed.

End build.

(** X1.  The index can be built exactly when the API groups can be listed
    and, for every group that lists its preferred version among its
    versions, the resources of that version can be listed.  What the server
    answers for any other group-version does not matter. *)
Theorem X1_index_built_iff (rv : resourceResolver) :
  is_Ok (indexResources rv) = true
  ↔ ∃ serverGroups,
      discovery.ServerGroups (client rv) = Ok serverGroups
      ∧ Forall (preferredFetched rv) (apismeta.Groups serverGroups).
Proof.
  unfold indexResources.
  destruct (discovery.ServerGroups (client rv)) as [serverGroups|err]; simpl.
  - rewrite indexGroups_is_Ok. split.
    + intros H. by exists serverGroups.
    + by intros (? & [= <-] & H).
  - split; [done | by intros (? & ? & _)].
Qed.

(** X2.  The index build stops at the first group whose preferred version
    cannot be listed: when the groups before it can be indexed, the error
    is the error of that request behind the context getting resources for
    API group, whatever the groups after it are. *)
Theorem X2_first_failing_group (rv : resourceResolver)
    (serverGroups : apismeta.APIGroupList)
    (done_ rest : list apismeta.APIGroup) (sg : apismeta.APIGroup) (cause : error) :
  discovery.ServerGroups (client rv) = Ok serverGroups →
  apismeta.Groups serverGroups = done_ ++ sg :: rest →
  Forall (preferredFetched rv) done_ →
  preferredListed sg →
  discovery.ServerResourcesForGroupVersion (client rv)
    (apismeta.GroupVersion (apismeta.PreferredVersion sg)) = Err cause →
  indexResources rv = Err (errGettingResources cause).
Proof.
  intros Hgroups Hsplit Hdone Hlisted Hfetch.
  unfold indexResources. rewrite Hgroups, Hsplit, indexGroups_app.
  apply (indexGroups_is_Ok rv done_ ∅) in Hdone.
  destruct (indexGroups rv done_ ∅) as [m|err]; [|done]. simpl.
  by rewrite (indexVersions_failed rv sg _ m cause Hlisted Hfetch).
Qed.

Lemma X2_first_failing_group_witness :
  indexResources sample.halfReachableResolver = Err (errGettingResources "timeout").
Proof.
  apply (X2_first_failing_group sample.halfReachableResolver sample.groups
           [ {| apismeta.GroupName := EmptyString;
                apismeta.Versions := [sample.gv "v1"];
                apismeta.PreferredVersion := sample.gv "v1" |} ] []
           {| apismeta.GroupName := "apps";
              apismeta.Versions := [sample.gv "apps/v1beta1"; sample.gv "apps/v1"];
              apismeta.PreferredVersion := sample.gv "apps/v1" |} "timeout").
  - reflexivity.
  - reflexivity.
  - constructor; [|constructor]. intros _. vm_compute. reflexivity.
  - apply (bool_decide_unpack _). vm_compute. exact I.
  - vm_compute. reflexivity.
Defined.

(** ** The keys of the index *)

Section keys.

Implicit Types (m index : gmap string apismeta.APIResource).
Implicit Types (res d : apismeta.APIResource) (k : string).
Implicit Types (rs : list apismeta.APIResource).

(** Among the resources that carry a key there is a last one. *)
Lemma last_carrier rs k :
  Exists (λ res, k ∈ names res) rs →
  ∃ before d after,
    rs = before ++ d :: after ∧ k ∈ names d
    ∧ ∀ res, res ∈ after → k ∉ names res.
Proof.
  induction rs as [|res rs IH]; intros Hex; [by apply Exists_nil in Hex |].
  destruct (decide (Exists (λ res, k ∈ names res) rs)) as [Hrs|Hrs].
  - destruct (IH Hrs) as (before & d & after & -> & Hd & Hafter).
    by exists (res :: before), d, after.
  - apply Exists_cons in Hex as [Hres|Hex]; [|done].
    exists [], res, rs. split; [done |]. split; [done |].
    intros res' Hin Hk. apply Hrs, Exists_exists. by exists res'.
Qed.

Lemma lookup_indexAPIResources_carried rs m k :
  Exists (λ res, k ∈ names res) rs →
  ∃ d, d ∈ rs ∧ k ∈ names d ∧ indexAPIResources rs m !! k = Some d.
Proof.
  intros (before & d & after & -> & Hd & Hafter)%last_carrier.
  exists d. split; [|split; [done |]].
  - apply elem_of_app. right. by left.
  - by apply lookup_indexAPIResources_last.
Qed.

Lemma lookup_indexAPIResources_not_carried rs m k :
  ¬ Exists (λ res, k ∈ names res) rs →
  indexAPIResources rs m !! k = m !! k.
Proof.
  intros Hnone. apply lookup_indexAPIResources_other.
  intros res Hin Hk. apply Hnone, Exists_exists. by exists res.
Qed.

Lemma collisionFree_eq rs d1 d2 k :
  collisionFree rs → d1 ∈ rs → d2 ∈ rs → k ∈ names d1 → k ∈ names d2 → d1 = d2.
Proof.
  unfold collisionFree. intros Hfree H1 H2 Hk1 Hk2.
  rewrite Forall_forall in Hfree. specialize (Hfree d1 H1).
  rewrite Forall_forall in Hfree. specialize (Hfree d2 H2).
  rewrite Forall_forall in Hfree. by apply (Hfree k).
Qed.

Lemma lookup_indexAPIResources_collisionFree rs m d k :
  collisionFree rs → d ∈ rs → k ∈ names d →
  indexAPIResources rs m !! k = Some d.
Proof.
  intros Hfree Hd Hk.
  destruct (lookup_indexAPIResources_carried rs m k) as (d' & Hd' & Hk' & ->).
  { apply Exists_exists. by exists d. }
  f_equal. by apply (collisionFree_eq rs d' d k).
Qed.

End keys.

(** X3.  The keys of a built index are exactly the plural names and the
    short names of the visited resources: a token is a key if and only if
    some resource listed for a preferred version carries it. *)
Theorem X3_keys_of_the_index (rv : resourceResolver)
    (index : gmap string apismeta.APIResource) (k : string) :
  indexResources rv = Ok index →
  is_Some (index !! k) ↔ ∃ d, d ∈ visited rv ∧ k ∈ names d.
Proof.
  intros Hindex. apply indexResources_Ok in Hindex as ->. split.
  - intros [d Hd]. exists d.
    apply lookup_indexAPIResources_Some in Hd as [Hd|Hd]; [|done].
    by rewrite lookup_empty in Hd.
  - intros (d & Hd & Hk).
    destruct (lookup_indexAPIResources_carried (visited rv) ∅ k)
      as (d' & _ & _ & ->); [|done].
    apply Exists_exists. by exists d.
Qed.

Lemma X3_keys_of_the_index_witness :
  is_Some (indexAPIResources (visited sample.resolver) ∅ !! "deploy")
  ↔ ∃ d, d ∈ visited sample.resolver ∧ "deploy" ∈ names d.
Proof.
  apply (X3_keys_of_the_index sample.resolver
           (indexAPIResources (visited sample.resolver) ∅) "deploy").
  vm_compute. reflexivity.
Defined.

(** X4.  When no group lists its preferred version among its versions (in
    particular when there is no group), no list of resources is requested,
    the index is built and is empty, and [Resolve] fails with the error of
    an unknown resource type for every resource but the wildcard, whatever
    the REST mapper answers. *)
Theorem X4_nothing_listed (rv : resourceResolver)
    (serverGroups : apismeta.APIGroupList) :
  discovery.ServerGroups (client rv) = Ok serverGroups →
  Forall (λ sg, ¬ preferredListed sg) (apismeta.Groups serverGroups) →
  indexResources rv = Ok ∅
  ∧ ∀ verb resource subResource,
      resource ≠ rbac.ResourceAll →
      Resolve rv verb resource subResource
      = Err (errNoResourceType (requestedName resource subResource)).
Proof.
  intros Hgroups Hnone.
  assert (indexResources rv = Ok ∅) as Hindex.
  { unfold indexResources. rewrite Hgroups.
    generalize (∅ : gmap string apismeta.APIResource).
    induction Hnone as [|sg groups Hsg _ IH]; intros m; simpl; [done |].
    rewrite indexVersions_skip; [apply IH |].
    by apply not_Exists_Forall; [intros ?; apply _ |]. }
  split; [done |]. intros verb resource subResource Hres.
  apply Resolve_not_found; [done |].
  eapply resourceFor_parent_Err; [done |].
  apply lookupResource_unknown; [apply lookup_empty |].
  intros gvr _. apply lookup_empty.
Qed.

Lemma X4_nothing_listed_witness :
  indexResources fixtures.strayPreferredResolver = Ok ∅
  ∧ ∀ verb resource subResource,
      resource ≠ rbac.ResourceAll →
      Resolve fixtures.strayPreferredResolver verb resource subResource
      = Err (errNoResourceType (requestedName resource subResource)).
Proof.
  eapply (X4_nothing_listed fixtures.strayPreferredResolver).
  - reflexivity.
  - apply (bool_decide_unpack _). vm_compute. exact I.
Defined.

(** X5.  When no key is carried by two different visited resources, the
    index does not depend on the order in which the groups and their
    resources are visited: two clusters whose visited resources are the
    same up to their order build the same index. *)
Theorem X5_order_irrelevant_without_collisions (rv rv' : resourceResolver)
    (index index' : gmap string apismeta.APIResource) :
  indexResources rv = Ok index →
  indexResources rv' = Ok index' →
  visited rv ≡ₚ visited rv' →
  collisionFree (visited rv) →
  index' = index.
Proof.
  intros Hindex Hindex' Hperm Hfree.
  apply indexResources_Ok in Hindex as ->.
  apply indexResources_Ok in Hindex' as ->.
  apply map_eq. intros k.
  destruct (decide (Exists (λ res, k ∈ names res) (visited rv'))) as [Hex|Hnone].
  - destruct (lookup_indexAPIResources_carried (visited rv') ∅ k Hex)
      as (d & Hd & Hk & ->).
    symmetry. apply lookup_indexAPIResources_collisionFree; [done | | done].
    by rewrite Hperm.
  - rewrite !lookup_indexAPIResources_not_carried; [done | | done].
    by rewrite Hperm.
Qed.

Lemma X5_order_irrelevant_without_collisions_witness :
  indexAPIResources (visited fixtures.reorderedResolver) ∅
  = indexAPIResources (visited sample.resolver) ∅.
Proof.
  apply (X5_order_irrelevant_without_collisions
           sample.resolver fixtures.reorderedResolver).
  - vm_compute. reflexivity.
  - vm_compute. reflexivity.
  - change (visited sample.resolver)
      with ([sample.pods; sample.podsLog; sample.persistentvolumes]
            ++ [sample.deployments]).
    change (visited fixtures.reorderedResolver)
      with ([sample.deployments]
            ++ [sample.pods; sample.podsLog; sample.persistentvolumes]).
    apply Permutation_app_comm.
  - apply (bool_decide_unpack _). vm_compute. exact I.
Defined.

(** ** The REST mapper *)

Lemma indexResources_same_client (rv rv' : resourceResolver) :
  client rv' = client rv → indexResources rv' = indexResources rv.
Proof.
  intros Hclient. unfold indexResources. rewrite Hclient.
  destruct (discovery.ServerGroups (client rv)) as [serverGroups|err]; [|done].
  apply indexGroups_preferred_only. intros sg _. by rewrite Hclient.
Qed.

Lemma lookupResource_mapped (rv : resourceResolver)
    (index : gmap string apismeta.APIResource) (resourceArg : string)
    (gvr : schema.GroupVersionResource) (d : apismeta.APIResource) :
  index !! resourceArg = None →
  meta.ResourceFor (mapper rv)
    {| schema.Group := EmptyString; schema.Version := EmptyString;
       schema.Resource := resourceArg |} = Ok gvr →
  index !! schema.Resource gvr = Some d →
  lookupResource rv index resourceArg = Ok d.
Proof. unfold lookupResource. by intros -> -> ->. Qed.

(** X6.  A token that is no key of the index is handed to the REST mapper;
    when the resource of the answer is a key, the descriptor stored under
    it is the one resolved, whatever group and version the answer has:
    [Resolve] returns its plural name if it supports the verb and the error
    of an unsupported verb otherwise. *)
Theorem X6_mapper_fallback (rv : resourceResolver)
    (index : gmap string apismeta.APIResource)
    (gvr : schema.GroupVersionResource) (d : apismeta.APIResource)
    (verb resource : string) :
  resource ≠ rbac.ResourceAll →
  indexResources rv = Ok index →
  index !! resource = None →
  meta.ResourceFor (mapper rv)
    {| schema.Group := EmptyString; schema.Version := EmptyString;
       schema.Resource := resource |} = Ok gvr →
  index !! schema.Resource gvr = Some d →
  Resolve rv verb resource EmptyString
  = if isVerbSupportedBy rv verb d then Ok (apismeta.Name d)
    else Err (errVerbNotSupported d verb).
Proof.
  intros Hres Hindex Hdirect Hmap Hmapped.
  apply Resolve_found; [done |].
  eapply resourceFor_plain; [done |]. by eapply lookupResource_mapped.
Qed.

(** The singular pod is no key; the mapper turns it into pods. *)
Lemma X6_mapper_fallback_witness :
  Resolve sample.resolver "list" "pod" EmptyString = Ok "pods".
Proof.
  apply (X6_mapper_fallback sample.resolver
           (indexAPIResources (visited sample.resolver) ∅)
           {| schema.Group := EmptyString; schema.Version := "v1";
              schema.Resource := "pods" |}
           sample.pods "list" "pod").
  - discriminate.
  - vm_compute. reflexivity.
  - vm_compute. reflexivity.
  - vm_compute. reflexivity.
  - vm_compute. reflexivity.
Defined.

(** X7.  A token that is a key of the index is never handed to the REST
    mapper: with the same discovery client and any other mapper [Resolve]
    gives the same result, for every verb and sub-resource. *)
Theorem X7_mapper_unused_on_direct_hit (rv : resourceResolver)
    (index : gmap string apismeta.APIResource) (mapper' : meta.RESTMapper)
    (verb resource subResource : string) :
  indexResources rv = Ok index →
  is_Some (index !! resource) →
  Resolve (NewResourceResolver (client rv) mapper') verb resource subResource
  = Resolve rv verb resource subResource.
Proof.
  intros Hindex [d Hd].
  pose proof (indexResources_same_client rv
                (NewResourceResolver (client rv) mapper') eq_refl) as Hsame.
  unfold Resolve, resourceFor. rewrite Hsame, Hindex.
  unfold lookupResource. rewrite Hd. reflexivity.
Qed.

Lemma X7_mapper_unused_on_direct_hit_witness :
  Resolve (NewResourceResolver (client sample.resolver) fixtures.eagerMapper)
    "get" "pv" EmptyString
  = Resolve sample.resolver "get" "pv" EmptyString.
Proof.
  apply (X7_mapper_unused_on_direct_hit sample.resolver
           (indexAPIResources (visited sample.resolver) ∅)).
  - vm_compute. reflexivity.
  - apply (bool_decide_unpack _). vm_compute. exact I.
Defined.

(** ** Sub-resources and compound tokens *)

Lemma compound_not_wildcard (a b : string) : a +:+ "/" +:+ b ≠ rbac.ResourceAll.
Proof.
  destruct a as [|c a].
  - cbv. intros [=].
  - rewrite append_cons. unfold rbac.ResourceAll. intros [= -> H].
    destruct a; cbv in H; discriminate H.
Qed.

(** X8.  A sub-resource can be named in two ways.  When the parent resolves
    and the compound key, the plural name of the parent, a slash and the
    sub-resource, is in the index, [Resolve] with the resource and the
    sub-resource gives the same result as [Resolve] with the compound key
    as resource and no sub-resource. *)
Theorem X8_sub_resource_as_token (rv : resourceResolver)
    (index : gmap string apismeta.APIResource) (parent : apismeta.APIResource)
    (verb resource subResource : string) :
  resource ≠ rbac.ResourceAll →
  subResource ≠ EmptyString →
  indexResources rv = Ok index →
  lookupResource rv index resource = Ok parent →
  is_Some (index !! (apismeta.Name parent +:+ "/" +:+ subResource)) →
  Resolve rv verb resource subResource
  = Resolve rv verb (apismeta.Name parent +:+ "/" +:+ subResource) EmptyString.
Proof.
  intros Hres Hsub Hindex Hparent [d Hd].
  rewrite (Resolve_found rv verb resource subResource d); [| done |].
  - symmetry. apply Resolve_found; [apply compound_not_wildcard |].
    eapply resourceFor_plain; [done |]. by apply lookupResource_direct.
  - rewrite (resourceFor_sub rv index resource subResource parent) by done.
    unfold lookupSubResource. by rewrite Hd.
Qed.

Lemma X8_sub_resource_as_token_witness :
  Resolve sample.resolver "get" "po" "log"
  = Resolve sample.resolver "get" "pods/log" EmptyString.
Proof.
  apply (X8_sub_resource_as_token sample.resolver
           (indexAPIResources (visited sample.resolver) ∅) sample.pods
           "get" "po" "log").
  - discriminate.
  - discriminate.
  - vm_compute. reflexivity.
  - vm_compute. reflexivity.
  - apply (bool_decide_unpack _). vm_compute. exact I.
Defined.

(** ** What [Resolve] can return *)

Section outcome.

Variable rv : resourceResolver.
Implicit Types (d : apismeta.APIResource).

(** A descriptor found by [resourceFor] is a visited resource. *)
Lemma resourceFor_visited resourceArg subResource d :
  resourceFor rv resourceArg subResource = Ok d → d ∈ visited rv.
Proof.
  unfold resourceFor.
  destruct (indexResources rv) as [index|err] eqn:Hindex; [|done].
  apply indexResources_Ok in Hindex as ->.
  assert (∀ k d', indexAPIResources (visited rv) ∅ !! k = Some d' → d' ∈ visited rv)
    as Hstored.
  { intros k d' [H|[H _]]%lookup_indexAPIResources_Some; [|done].
    by rewrite lookup_empty in H. }
  destruct (lookupResource rv _ resourceArg) as [parent|err] eqn:Hparent; [|done].
  destruct (decide (subResource ≠ EmptyString)) as [Hsub|Hsub].
  - unfold lookupSubResource.
    destruct (_ !! (apismeta.Name parent +:+ "/" +:+ subResource)) as [sub|] eqn:Hk;
      [|done].
    intros [= <-]. by eapply Hstored.
  - intros [= <-]. unfold lookupResource in Hparent.
    destruct (_ !! resourceArg) as [direct|] eqn:Hdirect.
    + injection Hparent as <-. by eapply Hstored.
    + destruct (meta.ResourceFor _ _) as [gvr|err]; [|done].
      destruct (_ !! schema.Resource gvr) as [mapped|] eqn:Hmapped; [|done].
      injection Hparent as <-. by eapply Hstored.
Qed.

(** [Resolve] by cases on the outcome of [resourceFor]. *)
Lemma Resolve_cases verb resource subResource :
  (resource = rbac.ResourceAll
   ∧ Resolve rv verb resource subResource = Ok resource)
  ∨ (resource ≠ rbac.ResourceAll
     ∧ is_Err (resourceFor rv resource subResource) = true
     ∧ Resolve rv verb resource subResource
       = Err (errNoResourceType (requestedName resource subResource)))
  ∨ (∃ d, resource ≠ rbac.ResourceAll
       ∧ resourceFor rv resource subResource = Ok d
       ∧ Resolve rv verb resource subResource
         = if isVerbSupportedBy rv verb d then Ok (apismeta.Name d)
           else Err (errVerbNotSupported d verb)).
Proof.
  destruct (decide (resource = rbac.ResourceAll)) as [->|Hres].
  - left. split; [done | apply Resolve_all].
  - right. destruct (resourceFor rv resource subResource) as [d|err] eqn:Hfor.
    + right. exists d. split; [done |]. split; [done |]. by apply Resolve_found.
    + left. split; [done |]. split; [done |].
      apply Resolve_not_found; [done |]. by rewrite Hfor.
Qed.

End outcome.

Lemma errors_differ (name verb : string) (d : apismeta.APIResource) :
  errNoResourceType name ≠ errVerbNotSupported d verb.
Proof.
  unfold errNoResourceType, errVerbNotSupported, fmt.quoted, fmt.dquote.
  cbv [String.append]. intros [=].
Qed.

(** X9.  A name returned by [Resolve] is either the wildcard resource
    itself, or the plural name of a resource that is listed for the
    preferred version of a group and that supports the verb (or the verb is
    the wildcard). *)
Theorem X9_success_is_sound (rv : resourceResolver)
    (verb resource subResource name : string) :
  Resolve rv verb resource subResource = Ok name →
  (resource = rbac.ResourceAll ∧ name = rbac.ResourceAll)
  ∨ ∃ d, d ∈ visited rv
       ∧ name = apismeta.Name d
       ∧ (verb = rbac.VerbAll ∨ verb ∈ apismeta.Verbs d).
Proof.
  intros Hok.
  destruct (Resolve_cases rv verb resource subResource)
    as [[-> H]|[(_ & _ & H)|(d & _ & Hfor & H)]]; rewrite H in Hok.
  - left. by injection Hok as <-.
  - done.
  - right. exists d. split; [by eapply resourceFor_visited |].
    destruct (isVerbSupportedBy rv verb d) eqn:Hverb; [|done].
    injection Hok as <-. split; [done |]. by apply (isVerbSupportedBy_spec rv).
Qed.

Lemma X9_success_is_sound_witness :
  ("po" = rbac.ResourceAll ∧ "pods/log" = rbac.ResourceAll)
  ∨ ∃ d, d ∈ visited sample.resolver
       ∧ "pods/log" = apismeta.Name d
       ∧ ("get" = rbac.VerbAll ∨ "get" ∈ apismeta.Verbs d).
Proof.
  apply (X9_success_is_sound sample.resolver "get" "po" "log" "pods/log").
  vm_compute. reflexivity.
Defined.

(** X10.  [Resolve] fails in two ways only, which no message confuses:
    with the error of an unknown resource type for the requested name, or
    with the error of an unsupported verb for a visited resource that does
    not have the verb, the verb not being the wildcard.  It never fails on
    the wildcard resource. *)
Theorem X10_failures (rv : resourceResolver)
    (verb resource subResource : string) (err : error) :
  Resolve rv verb resource subResource = Err err →
  resource ≠ rbac.ResourceAll
  ∧ ((err = errNoResourceType (requestedName resource subResource)
      ∧ ∀ d, err ≠ errVerbNotSupported d verb)
     ∨ (∃ d, d ∈ visited rv
          ∧ verb ≠ rbac.VerbAll
          ∧ (verb ∉ apismeta.Verbs d)
          ∧ err = errVerbNotSupported d verb
          ∧ ∀ name, err ≠ errNoResourceType name)).
Proof.
  intros Herr.
  destruct (Resolve_cases rv verb resource subResource)
    as [[-> H]|[(Hres & _ & H)|(d & Hres & Hfor & H)]]; rewrite H in Herr.
  - done.
  - injection Herr as <-. split; [done |]. left. split; [done |].
    intros d. apply errors_differ.
  - split; [done |]. right. exists d.
    destruct (isVerbSupportedBy rv verb d) eqn:Hverb; [done |].
    injection Herr as <-. split; [by eapply resourceFor_visited |].
    assert (¬ (verb = rbac.VerbAll ∨ verb ∈ apismeta.Verbs d)) as Hno.
    { intros Hyes%(isVerbSupportedBy_spec rv). by rewrite Hverb in Hyes. }
    split; [tauto |]. split; [tauto |]. split; [done |].
    intros name Heq. by apply (errors_differ name verb d).
Qed.

Lemma X10_failures_witness :
  "deploy" ≠ rbac.ResourceAll
  ∧ ((errVerbNotSupported sample.deployments "delete"
      = errNoResourceType (requestedName "deploy" EmptyString)
      ∧ ∀ d, errVerbNotSupported sample.deployments "delete"
             ≠ errVerbNotSupported d "delete")
     ∨ (∃ d, d ∈ visited sample.resolver
          ∧ "delete" ≠ rbac.VerbAll
          ∧ ("delete" ∉ apismeta.Verbs d)
          ∧ errVerbNotSupported sample.deployments "delete"
            = errVerbNotSupported d "delete"
          ∧ ∀ name, errVerbNotSupported sample.deployments "delete"
                    ≠ errNoResourceType name)).
Proof.
  apply (X10_failures sample.resolver "delete" "deploy" EmptyString).
  vm_compute. reflexivity.
Defined.

(** X11.  The wildcard verb is the most permissive one: when [Resolve]
    succeeds for some verb, it succeeds for the wildcard verb too, with the
    same name. *)
Theorem X11_wildcard_verb_is_most_permissive (rv : resourceResolver)
    (verb resource subResource name : string) :
  Resolve rv verb resource subResource = Ok name →
  Resolve rv rbac.VerbAll resource subResource = Ok name.
Proof.
  intros Hok.
  destruct (Resolve_cases rv verb resource subResource)
    as [[-> H]|[(_ & _ & H)|(d & Hres & Hfor & H)]]; rewrite H in Hok.
  - injection Hok as <-. apply Resolve_all.
  - done.
  - destruct (isVerbSupportedBy rv verb d); [|done]. injection Hok as <-.
    rewrite (Resolve_found rv _ resource subResource d) by done.
    by rewrite (proj2 (isVerbSupportedBy_spec rv rbac.VerbAll d)) by (by left).
Qed.

Lemma X11_wildcard_verb_is_most_permissive_witness :
  Resolve sample.resolver rbac.VerbAll "deploy" EmptyString = Ok "deployments".
Proof.
  apply (X11_wildcard_verb_is_most_permissive sample.resolver "patch").
  vm_compute. reflexivity.
Defined.

(** X12.  Resolving is idempotent when every visited resource is still
    stored under its own plural name: a name that [Resolve] returns,
    given back to [Resolve] as resource with the same verb and no
    sub-resource, is returned again. *)
Theorem X12_resolving_a_resolved_name (rv : resourceResolver)
    (index : gmap string apismeta.APIResource)
    (verb resource subResource name : string) :
  indexResources rv = Ok index →
  pluralNamesKept index (visited rv) →
  Resolve rv verb resource subResource = Ok name →
  Resolve rv verb name EmptyString = Ok name.
Proof.
  intros Hindex Hkept Hok.
  destruct (Resolve_cases rv verb resource subResource)
    as [[-> H]|[(_ & _ & H)|(d & Hres & Hfor & H)]]; rewrite H in Hok.
  - injection Hok as <-. apply Resolve_all.
  - done.
  - destruct (isVerbSupportedBy rv verb d) eqn:Hverb; [|done].
    injection Hok as <-.
    destruct (decide (apismeta.Name d = rbac.ResourceAll)) as [->|Hname];
      [apply Resolve_all |].
    rewrite (Resolve_found rv verb (apismeta.Name d) EmptyString d);
      [by rewrite Hverb | done |].
    eapply resourceFor_plain; [done |]. apply lookupResource_direct.
    unfold pluralNamesKept in Hkept. rewrite Forall_forall in Hkept.
    apply Hkept. by eapply resourceFor_visited.
Qed.

Lemma X12_resolving_a_resolved_name_witness :
  Resolve sample.resolver "get" "pods/log" EmptyString = Ok "pods/log".
Proof.
  apply (X12_resolving_a_resolved_name sample.resolver
           (indexAPIResources (visited sample.resolver) ∅)
           "get" "po" "log" "pods/log").
  - vm_compute. reflexivity.
  - apply (bool_decide_unpack _). vm_compute. exact I.
  - vm_compute. reflexivity.
Defined.

(** ** A preferred version listed more than once *)

Lemma indexAPIResources_twice (rs : list apismeta.APIResource)
    (m : gmap string apismeta.APIResource) :
  indexAPIResources rs (indexAPIResources rs m) = indexAPIResources rs m.
Proof.
  apply map_eq. intros k.
  destruct (decide (Exists (λ res, k ∈ names res) rs)) as [Hex|Hnone].
  - destruct (last_carrier rs k Hex) as (before & d & after & -> & Hd & Hafter).
    by rewrite !lookup_indexAPIResources_last.
  - by rewrite !lookup_indexAPIResources_not_carried.
Qed.

Lemma indexVersions_absorbed (rv : resourceResolver) (sg : apismeta.APIGroup)
    (versions : list apismeta.GroupVersionForDiscovery)
    (rsList : apismeta.APIResourceList) (m : gmap string apismeta.APIResource) :
  discovery.ServerResourcesForGroupVersion (client rv)
    (apismeta.GroupVersion (apismeta.PreferredVersion sg)) = Ok rsList →
  indexVersions rv sg versions (indexAPIResources (apismeta.APIResources rsList) m)
  = Ok (indexAPIResources (apismeta.APIResources rsList) m).
Proof.
  intros Hfetch. induction versions as [|version versions IH]; simpl; [done |].
  destruct (decide (apismeta.GroupVersion version
                    ≠ apismeta.GroupVersion (apismeta.PreferredVersion sg)))
    as [Hne|Heq]; [done |].
  apply dec_stable in Heq. by rewrite Heq, Hfetch, indexAPIResources_twice.
Qed.

(** X13.  However often and wherever a group lists its preferred version
    among its versions, the group is indexed as if it listed it once: the
    resources of the preferred version are stored, in their order, on top
    of what the index held. *)
Theorem X13_preferred_version_listed_again (rv : resourceResolver)
    (sg : apismeta.APIGroup) (rsList : apismeta.APIResourceList)
    (m : gmap string apismeta.APIResource) :
  preferredListed sg →
  discovery.ServerResourcesForGroupVersion (client rv)
    (apismeta.GroupVersion (apismeta.PreferredVersion sg)) = Ok rsList →
  indexVersions rv sg (apismeta.Versions sg) m
  = Ok (indexAPIResources (apismeta.APIResources rsList) m).
Proof.
  unfold preferredListed. intros Hlisted Hfetch.
  induction Hlisted as [version versions Heq|version versions _ IH]; simpl.
  - rewrite decide_False by (by intros ?). rewrite Heq, Hfetch.
    by apply indexVersions_absorbed.
  - destruct (decide (apismeta.GroupVersion version
                      ≠ apismeta.GroupVersion (apismeta.PreferredVersion sg)))
      as [Hne|Heq]; [done |].
    apply dec_stable in Heq. rewrite Heq, Hfetch.
    by apply indexVersions_absorbed.
Qed.

Lemma X13_preferred_version_listed_again_witness :
  indexVersions sample.resolver
    {| apismeta.GroupName := "apps";
       apismeta.Versions :=
         [sample.gv "apps/v1"; sample.gv "apps/v1beta1"; sample.gv "apps/v1"];
       apismeta.PreferredVersion := sample.gv "apps/v1" |}
    [sample.gv "apps/v1"; sample.gv "apps/v1beta1"; sample.gv "apps/v1"] ∅
  = Ok (indexAPIResources [sample.deployments] ∅).
Proof.
  apply (X13_preferred_version_listed_again sample.resolver
           {| apismeta.GroupName := "apps";
              apismeta.Versions :=
                [sample.gv "apps/v1"; sample.gv "apps/v1beta1"; sample.gv "apps/v1"];
              apismeta.PreferredVersion := sample.gv "apps/v1" |}
           {| apismeta.ListGroupVersion := "apps/v1";
              apismeta.APIResources := [sample.deployments] |} ∅).
  - apply (bool_decide_unpack _). vm_compute. exact I.
  - vm_compute. reflexivity.
Defined.

(** * The access checker *)

(** X14.  [IsAllowedTo] submits one review, which asks about the verb,
    the resource and the namespace as they were given and about nothing
    else.  Its answer depends on the client through that review only: two
    clients that agree on the reviews of this action give the same answer.
    The answer is true without error exactly when the review was created
    and its status says allowed; it is false with the error of the client,
    unchanged, exactly when the review could not be created; and it is
    never true together with an error. *)
Theorem X14_access_checker (ac ac' : accessChecker)
    (verb resource namespace : string) :
  (∀ sar, reviewsAction sar verb resource namespace →
          clientauthz.Create (reviewClient ac') sar
          = clientauthz.Create (reviewClient ac) sar) →
  IsAllowedTo ac' verb resource namespace = IsAllowedTo ac verb resource namespace
  ∧ ∃ sar,
      reviewsAction sar verb resource namespace
      ∧ (IsAllowedTo ac verb resource namespace = (true, None)
         ↔ ∃ answer, clientauthz.Create (reviewClient ac) sar = Ok answer
                     ∧ authz.Allowed (authz.Status answer) = true)
      ∧ (∀ err, clientauthz.Create (reviewClient ac) sar = Err err
                ↔ IsAllowedTo ac verb resource namespace = (false, Some err))
      ∧ (∀ err, IsAllowedTo ac verb resource namespace ≠ (true, Some err)).
Proof.
  intros Hagree. split.
  - unfold IsAllowedTo. by rewrite Hagree.
  - exists (accessReview verb resource namespace). split; [done |].
    unfold IsAllowedTo.
    destruct (clientauthz.Create (reviewClient ac) _) as [answer|err'].
    + split; [|split; [|done]].
      * split; [intros [= H]; by exists answer |].
        intros (answer' & [= <-] & ->). done.
      * intros err. split; done.
    + split; [|split; [|done]].
      * split; [done | by intros (? & ? & _)].
      * intros err. split; by intros [= ->].
Qed.

(** A client that answers nothing but reviews for listing in foo gives the
    answer of the sample client for listing roles in foo. *)
Lemma X14_access_checker_witness :
  IsAllowedTo (NewAccessChecker fixtures.narrowReviewer) "list" "roles" "foo"
  = IsAllowedTo (NewAccessChecker fixtures.reviewer) "list" "roles" "foo".
Proof.
  apply (X14_access_checker (NewAccessChecker fixtures.reviewer)
           (NewAccessChecker fixtures.narrowReviewer) "list" "roles" "foo").
  intros sar Hsar. unfold reviewsAction in Hsar. simpl.
  rewrite Hsar. reflexivity.
Defined.

(** The sample review client: allowed, not allowed, and failing. *)
Example IsAllowedTo_sample :
  let ac := NewAccessChecker fixtures.reviewer in
  IsAllowedTo ac "list" "roles" "foo" = (true, None)
  ∧ IsAllowedTo ac "list" "roles" "bar" = (false, None)
  ∧ IsAllowedTo ac "list" "roles" "broken" = (false, Some "forbidden").
Proof. vm_compute. done. Qed.

(** * Versions that are not preferred, seen from [Resolve] *)

(** X15.  The answer of [Resolve] depends on the discovery client only
    through the list of groups and the resource lists of the preferred
    versions: two resolvers with the same REST mapper and the same groups,
    whose clients agree on the preferred version of every group, give the
    same result for every verb, resource and sub-resource, whatever the
    clients answer, or fail to answer, for other group-versions. *)
Theorem X15_resolve_ignores_other_versions (rv rv' : resourceResolver)
    (serverGroups : apismeta.APIGroupList)
    (verb resource subResource : string) :
  mapper rv' = mapper rv →
  discovery.ServerGroups (client rv) = Ok serverGroups →
  discovery.ServerGroups (client rv') = Ok serverGroups →
  Forall (λ sg,
            discovery.ServerResourcesForGroupVersion (client rv')
              (apismeta.GroupVersion (apismeta.PreferredVersion sg))
            = discovery.ServerResourcesForGroupVersion (client rv)
                (apismeta.GroupVersion (apismeta.PreferredVersion sg)))
         (apismeta.Groups serverGroups) →
  Resolve rv' verb resource subResource = Resolve rv verb resource subResource.
Proof.
  intros Hmapper Hgroups Hgroups' Hagree.
  assert (indexResources rv' = indexResources rv) as Hindex.
  { unfold indexResources. rewrite Hgroups, Hgroups'.
    apply indexGroups_preferred_only. by apply Forall_forall. }
  unfold Resolve, resourceFor. rewrite Hindex.
  unfold lookupResource. rewrite Hmapper. reflexivity.
Qed.

Lemma X15_resolve_ignores_other_versions_witness :
  Resolve
    (NewResourceResolver
       {| discovery.ServerGroups := Ok sample.groups;
          discovery.ServerResourcesForGroupVersion := λ s,
            if decide (s = "apps/v1beta1") then Err "gone"
            else discovery.ServerResourcesForGroupVersion sample.discoveryClient s |}
       sample.restMapper)
    "get" "dp" EmptyString
  = Resolve sample.resolver "get" "dp" EmptyString.
Proof.
  apply (X15_resolve_ignores_other_versions sample.resolver _ sample.groups).
  - reflexivity.
  - reflexivity.
  - reflexivity.
  - repeat constructor.
Defined.
